(** * table-dnd-sortable: drag tracking and row displacement

    A shallow embedding of [tableDndSortable] (the controller that lets a
    user reorder table rows by dragging) and the properties of its
    displacement and drop-resolution algorithms.

    Numbers.  JavaScript numbers that carry pixel quantities (pointer
    coordinates, row heights, displacements) are modelled as rationals
    [Q]: exact arithmetic, no rounding.  The two places where the source
    can leave the finite numbers are modelled explicitly: the division
    [dy / dx] of the default activation gate (type [jsnum]) and the
    lookup [bottomSeq[sourceIndex]] at activation, which is [undefined]
    when [indexOf] answered [-1] and makes [sourceMidPoint] a NaN.

    Effects.  The controller mutates one closure variable ([context]),
    registers three listeners, writes row styles and calls the caller's
    callbacks.  Handlers are functions from the state to the new state
    and the list of effects they performed, in order; [None] stands for
    an uncaught [TypeError].  The notification callbacks ([onDragStart],
    [onDragActivate], [onDragMove], [onDrop]) are recorded as effects
    carrying the context they were handed; they are taken not to mutate
    it and not to throw. *)

From Stdlib Require Import ZArith QArith Qabs List Bool Lia Lqa String.
Import ListNotations.

Open Scope Q_scope.

(** ** Numbers *)

Module Num.

(** [x > y] on numbers. *)
Definition gtb (x y : Q) : bool := negb (Qle_bool x y).

(** [x < y] on numbers. *)
Definition ltb (x y : Q) : bool := gtb y x.

(** The value of a JavaScript arithmetic expression that may leave the
    finite numbers. *)
Inductive jsnum :=
| Num (q : Q)
| PosInfinity
| NegInfinity
| NaN.

(** [x / y] on finite operands.  A zero divisor here is always the
    difference of two equal coordinates, which is [+0]. *)
Definition div (x y : Q) : jsnum :=
  if Qeq_bool y 0 then
    if Qeq_bool x 0 then NaN
    else if gtb x 0 then PosInfinity else NegInfinity
  else Num (x / y).

(** [Math.abs]. *)
Definition abs (v : jsnum) : jsnum :=
  match v with
  | Num q => Num (Qabs q)
  | PosInfinity | NegInfinity => PosInfinity
  | NaN => NaN
  end.

(** [v > c] for a finite [c]; every comparison with NaN is false. *)
Definition gt (v : jsnum) (c : Q) : bool :=
  match v with
  | Num q => gtb q c
  | PosInfinity => true
  | NegInfinity | NaN => false
  end.


End Num.

(** [a[i]] on an array: [undefined] ([None]) outside its bounds. *)
Definition js_index {A : Type} (a : list A) (i : Z) : option A :=
  if (i <? 0)%Z then None else nth_error a (Z.to_nat i).

(** [a.map((x, index) => f x index)], the index counted from [index]. *)
Fixpoint map_index {A B : Type} (f : A -> Z -> B) (index : Z) (a : list A)
  : list B :=
  match a with
  | [] => []
  | x :: rest => f x index :: map_index f (index + 1)%Z rest
  end.

(** ** The host document *)

Record Element := {
  node_id : nat;
  tagName : string
}.

Definition Element_eqb (a b : Element) : bool :=
  Nat.eqb (node_id a) (node_id b) && String.eqb (tagName a) (tagName b).

(** What the handlers read from the document when they run. *)
Record Dom := {
  (** [table.querySelectorAll('tr')], in document order *)
  query_tr : list Element;
  (** [el.getBoundingClientRect().height] *)
  height : Element -> Q
}.

Record MouseEvent := {
  clientX : Q;
  clientY : Q;
  (** [evt.target] followed by its successive [parentElement]s *)
  target_chain : list Element;
  currentTarget : Element
}.

(** ** The drag context *)

(** The fields [activate] assigns together. *)
Record Snapshot := {
  sourceIndex : Z;
  sourceHeight : Q;
  (** [None] is NaN *)
  sourceMidPoint : option Q;
  rowSeq : list Element;
  bottomSeq : list Q
}.

(** [Partial<TableDndContext>]: a field that is not set yet is [None]. *)
Record TableDndContext := {
  startPosition : Q * Q;
  activated : bool;
  source : Element;
  snapshot : option Snapshot;
  movememtSeq : option (list Q);
  (** [targetIndex] and [target = rowSeq[targetIndex]] *)
  resolved : option (Z * option Element)
}.

Inductive Effect :=
| OnDragStart (c : TableDndContext)
| OnDragActivate (c : TableDndContext)
| OnDragMove (c : TableDndContext)
| OnDrop (c : TableDndContext)
| PreventDefault
  (** [row.style.zIndex], [row.style.transition] and the vertical offset
      of [row.style.transform] *)
| StyleMove (row : Element) (zIndex : string) (transition : option string)
            (translateY : Q)
  (** the three style writes of [drop] *)
| StyleReset (row : Element).

(** ** Activation *)

(** The loop [bottomSeq.push(bottom += height)]. *)
Fixpoint cumulate (bottom : Q) (heightSeq : list Q) : list Q :=
  match heightSeq with
  | [] => []
  | h :: rest => (bottom + h) :: cumulate (bottom + h) rest
  end.

Fixpoint indexOf_from (i : Z) (a : list Element) (x : Element) : Z :=
  match a with
  | [] => (-1)%Z
  | y :: rest => if Element_eqb y x then i else indexOf_from (i + 1)%Z rest x
  end.

Definition indexOf (a : list Element) (x : Element) : Z := indexOf_from 0 a x.

Definition take_snapshot (dom : Dom) (src : Element) : Snapshot :=
  let sourceHeight := height dom src in
  let rowSeq := query_tr dom in
  let heightSeq := map (height dom) rowSeq in
  let bottomSeq := cumulate 0 heightSeq in
  let sourceIndex := indexOf rowSeq src in
  let sourceMidPoint :=
    match js_index bottomSeq sourceIndex with
    | Some bottom => Some (bottom + sourceHeight / 2)
    | None => None
    end in
  {| sourceIndex := sourceIndex;
     sourceHeight := sourceHeight;
     sourceMidPoint := sourceMidPoint;
     rowSeq := rowSeq;
     bottomSeq := bottomSeq |}.

Definition activate (dom : Dom) (ctx : TableDndContext)
  : TableDndContext * list Effect :=
  let ctx' :=
    {| startPosition := startPosition ctx;
       activated := true;
       source := source ctx;
       snapshot := Some (take_snapshot dom (source ctx));
       movememtSeq := movememtSeq ctx;
       resolved := resolved ctx |} in
  (ctx', [OnDragActivate ctx']).

(** ** Displacement *)

Section Displacement.

Variable snap : Snapshot.
Variable dy : Q.

Definition matchDirection (index : Z) : bool :=
  Num.gtb (dy * inject_Z (index - sourceIndex snap)) 0.

Definition overMidPoint (bottom : Q) : bool :=
  match sourceMidPoint snap with
  | Some mid =>
      Num.gtb
        (dy * (mid + dy - bottom
               - (if Num.ltb dy 0 then sourceHeight snap else 0)))
        0
  | None => false
  end.

(** The callback of [bottomSeq.map] in [move]. *)
Definition displacement (bottom : Q) (index : Z) : Q :=
  if (index =? sourceIndex snap)%Z then dy
  else if matchDirection index && overMidPoint bottom then
    if Num.gtb dy 0 then - sourceHeight snap else sourceHeight snap
  else 0.

Definition newMovementSeq : list Q :=
  map_index displacement 0 (bottomSeq snap).

End Displacement.

(** The style loop of [move], from [index] on. *)
Fixpoint restyle (snap : Snapshot) (old : option (list Q)) (index : nat)
  (pending : list Q) : option (list Effect) :=
  match pending with
  | [] => Some []
  | newMovement :: rest =>
      let oldMovement :=
        match old with
        | Some ms => nth_error ms index
        | None => Some 0
        end in
      let changed :=
        match oldMovement with
        | Some o => negb (Qeq_bool o newMovement)
        | None => true
        end in
      if changed then
        match nth_error (rowSeq snap) index with
        | None => None
        | Some row =>
            let is_source := (Z.of_nat index =? sourceIndex snap)%Z in
            option_map
              (cons (StyleMove row
                       (if is_source then "100" else "0")%string
                       (if is_source then Some "none"%string else None)
                       newMovement))
              (restyle snap old (S index) rest)
        end
      else restyle snap old (S index) rest
  end.

Definition move (dy : Q) (ctx : TableDndContext)
  : option (TableDndContext * list Effect) :=
  match snapshot ctx with
  | None => None
  | Some snap =>
      let new := newMovementSeq snap dy in
      match restyle snap (movememtSeq ctx) 0 new with
      | None => None
      | Some styles =>
          let ctx' :=
            {| startPosition := startPosition ctx;
               activated := activated ctx;
               source := source ctx;
               snapshot := snapshot ctx;
               movememtSeq := Some new;
               resolved := resolved ctx |} in
          Some (ctx', styles ++ [OnDragMove ctx'])
      end
  end.

(** ** Drop resolution *)

(** An array read performed while resolving a drop. *)
Inductive Access :=
| ReadMovement (i : Z)
| ReadRow (i : Z).

(** [v > 0] and [v < 0] where [v] may be [undefined]: both are false
    then. *)
Definition is_positive (v : option Q) : bool :=
  match v with
  | Some m => Num.gtb m 0
  | None => false
  end.

Definition is_negative (v : option Q) : bool :=
  match v with
  | Some m => Num.ltb m 0
  | None => false
  end.

(** [while (targetIndex > 0 && movememtSeq[targetIndex - 1] > 0)
    targetIndex--], with the reads it performs appended to [log].
    [None]: the fuel ran out before the loop ended. *)
Fixpoint walk_up (fuel : nat) (ms : list Q) (targetIndex : Z)
  (log : list Access) : option (Z * list Access) :=
  match fuel with
  | O => None
  | S fuel' =>
      if (0 <? targetIndex)%Z then
        let log' := log ++ [ReadMovement (targetIndex - 1)] in
        if is_positive (js_index ms (targetIndex - 1)) then
          walk_up fuel' ms (targetIndex - 1)%Z log'
        else Some (targetIndex, log')
      else Some (targetIndex, log)
  end.

(** [while (targetIndex < movememtSeq.length - 1 &&
    movememtSeq[targetIndex + 1] < 0) targetIndex++]. *)
Fixpoint walk_down (fuel : nat) (ms : list Q) (targetIndex : Z)
  (log : list Access) : option (Z * list Access) :=
  match fuel with
  | O => None
  | S fuel' =>
      if (targetIndex <? Z.of_nat (List.length ms) - 1)%Z then
        let log' := log ++ [ReadMovement (targetIndex + 1)] in
        if is_negative (js_index ms (targetIndex + 1)) then
          walk_down fuel' ms (targetIndex + 1)%Z log'
        else Some (targetIndex, log')
      else Some (targetIndex, log)
  end.

(** The two walks of [drop] and the read [rowSeq[targetIndex]] that
    follows them. *)
Definition resolve (ms : list Q) (sourceIndex : Z)
  : option (Z * list Access) :=
  match walk_up (S (Z.to_nat sourceIndex)) ms sourceIndex [] with
  | None => None
  | Some (up, log) =>
      let walked :=
        if (up =? sourceIndex)%Z then
          walk_down (S (Z.to_nat (Z.of_nat (List.length ms) - 1 - up)))
            ms up log
        else Some (up, log) in
      match walked with
      | None => None
      | Some (targetIndex, log') =>
          Some (targetIndex, log' ++ [ReadRow targetIndex])
      end
  end.

(** [drop]: the effects it performs; the caller clears [context].  An
    activated context without [movememtSeq] makes the walks throw.
    ([resolve] itself always has fuel enough, see [resolve_total].) *)
Definition drop (dom : Dom) (ctx : TableDndContext) : option (list Effect) :=
  if activated ctx then
    match snapshot ctx, movememtSeq ctx with
    | Some snap, Some ms =>
        match resolve ms (sourceIndex snap) with
        | None => None
        | Some (targetIndex, _) =>
            let resets := map StyleReset (query_tr dom) in
            let target := js_index (rowSeq snap) targetIndex in
            let ctx' :=
              {| startPosition := startPosition ctx;
                 activated := activated ctx;
                 source := source ctx;
                 snapshot := snapshot ctx;
                 movememtSeq := movememtSeq ctx;
                 resolved := Some (targetIndex, target) |} in
            Some (resets ++ [OnDrop ctx'])
        end
    | _, _ => None
    end
  else Some [].

(** ** Options *)

Record TableDndSortableOptions := {
  onBeforeDragStart : MouseEvent -> bool;
  onBeforeDragActivate : MouseEvent -> Q * Q -> TableDndContext -> bool
}.

(** [Partial<TableDndSortableOptions>] as the caller passes it. *)
Record PartialOptions := {
  opt_onBeforeDragStart : option (MouseEvent -> bool);
  opt_onBeforeDragActivate
    : option (MouseEvent -> Q * Q -> TableDndContext -> bool)
}.

Definition defaultOptions : TableDndSortableOptions :=
  {| onBeforeDragStart := fun _ => true;
     onBeforeDragActivate := fun _ delta _ =>
       let '(dx, dy) := delta in
       Num.gtb (Qabs dy) 10 && Num.gt (Num.abs (Num.div dy dx)) 2 |}.

(** [Object.assign({}, defaultOptions, options)]. *)
Definition assign_options (options : PartialOptions)
  : TableDndSortableOptions :=
  {| onBeforeDragStart :=
       match opt_onBeforeDragStart options with
       | Some f => f
       | None => onBeforeDragStart defaultOptions
       end;
     onBeforeDragActivate :=
       match opt_onBeforeDragActivate options with
       | Some f => f
       | None => onBeforeDragActivate defaultOptions
       end |}.

(** ** The controller *)

(** The closure of one [tableDndSortable] call.  A listener field is
    [true] while that listener is registered on its target. *)
Record State := {
  mousedownListener : bool;
  mousemoveListener : bool;
  mouseupListener : bool;
  context : option TableDndContext
}.

Definition set_context (st : State) (c : option TableDndContext) : State :=
  {| mousedownListener := mousedownListener st;
     mousemoveListener := mousemoveListener st;
     mouseupListener := mouseupListener st;
     context := c |}.

(** The walk from [evt.target] up to the first [TR] or the table. *)
Fixpoint find_source (chain : list Element) (table : Element)
  : option Element :=
  match chain with
  | [] => None
  | el :: parents =>
      if negb (String.eqb (tagName el) "TR") && negb (Element_eqb el table)
      then find_source parents table
      else Some el
  end.

(** [start]: the fresh context and the call of [onDragStart]. *)
Definition start (src : Element) (pos : Q * Q)
  : TableDndContext * list Effect :=
  let ctx :=
    {| startPosition := pos;
       activated := false;
       source := src;
       snapshot := None;
       movememtSeq := None;
       resolved := None |} in
  (ctx, [OnDragStart ctx]).

Section Handlers.

Variable options : TableDndSortableOptions.

Definition on_mousedown (evt : MouseEvent) (st : State)
  : option (State * list Effect) :=
  if negb (onBeforeDragStart options evt) then Some (st, [])
  else
    match find_source (target_chain evt) (currentTarget evt) with
    | None => Some (st, [])
    | Some src =>
        if negb (String.eqb (tagName src) "TR") then Some (st, [])
        else
          let '(ctx, effs) := start src (clientX evt, clientY evt) in
          Some (set_context st (Some ctx), effs)
    end.

Definition on_mousemove (dom : Dom) (evt : MouseEvent) (st : State)
  : option (State * list Effect) :=
  match context st with
  | None => Some (st, [])
  | Some ctx =>
      let '(startX, startY) := startPosition ctx in
      let dx := clientX evt - startX in
      let dy := clientY evt - startY in
      let '(ctx1, effs1) :=
        if negb (activated ctx)
           && onBeforeDragActivate options evt (dx, dy) ctx
        then activate dom ctx
        else (ctx, []) in
      if activated ctx1 then
        match move dy ctx1 with
        | None => None
        | Some (ctx2, effs2) =>
            Some (set_context st (Some ctx2),
                  effs1 ++ PreventDefault :: effs2)
        end
      else Some (set_context st (Some ctx1), effs1)
  end.

Definition on_mouseup (dom : Dom) (st : State)
  : option (State * list Effect) :=
  match context st with
  | None => Some (st, [])
  | Some ctx =>
      match drop dom ctx with
      | None => None
      | Some effs => Some (set_context st None, effs)
      end
  end.

(** [setup]: the state in which [tableDndSortable] returns. *)
Definition setup : State :=
  {| mousedownListener := true;
     mousemoveListener := true;
     mouseupListener := true;
     context := None |}.

Definition destroy (st : State) : State :=
  {| mousedownListener := false;
     mousemoveListener := false;
     mouseupListener := false;
     context := context st |}.

(** What reaches the controller: the three pointer events, each with the
    document as it is when the event is delivered, and the call of the
    returned [destroy]. *)
Inductive Input :=
| MouseDown (evt : MouseEvent)
| MouseMove (dom : Dom) (evt : MouseEvent)
| MouseUp (dom : Dom)
| Destroy.

(** An event runs its handler only while the listener is registered. *)
Definition step (i : Input) (st : State) : option (State * list Effect) :=
  match i with
  | MouseDown evt =>
      if mousedownListener st then on_mousedown evt st else Some (st, [])
  | MouseMove dom evt =>
      if mousemoveListener st then on_mousemove dom evt st else Some (st, [])
  | MouseUp dom =>
      if mouseupListener st then on_mouseup dom st else Some (st, [])
  | Destroy => Some (destroy st, [])
  end.

(** A sequence of inputs, the effects concatenated in order. *)
Fixpoint run (inputs : list Input) (st : State)
  : option (State * list Effect) :=
  match inputs with
  | [] => Some (st, [])
  | i :: rest =>
      match step i st with
      | None => None
      | Some (st1, effs1) =>
          match run rest st1 with
          | None => None
          | Some (st2, effs2) => Some (st2, effs1 ++ effs2)
          end
      end
  end.

End Handlers.

(** [tableDndSortable(table, options)]: the merged options the handlers
    close over and the state [setup] leaves; the returned handle is
    [destroy]. *)
Definition tableDndSortable (options : PartialOptions)
  : TableDndSortableOptions * State :=
  (assign_options options, setup).

(** * Vocabulary of the properties *)

(** ** The displacement rule in the words of the specification *)



(** ** Displaced rows *)





(** ** Drop resolution in the words of the specification *)

(** The conditions under which each walk takes one more step. *)
Definition up_guard (ms : list Q) (t : Z) : Prop :=
  (0 < t)%Z /\ exists m, js_index ms (t - 1) = Some m /\ 0 < m.

Definition down_guard (ms : list Q) (t : Z) : Prop :=
  (t < Z.of_nat (List.length ms) - 1)%Z
  /\ exists m, js_index ms (t + 1) = Some m /\ m < 0.

(** [walks_up ms t t']: decrementing from [t] while the guard holds ends
    at [t']. *)
Inductive walks_up (ms : list Q) : Z -> Z -> Prop :=
| up_stop (t : Z) : ~ up_guard ms t -> walks_up ms t t
| up_step (t t' : Z) :
    up_guard ms t -> walks_up ms (t - 1) t' -> walks_up ms t t'.

(** [walks_down ms t t']: incrementing from [t] while the guard holds
    ends at [t']. *)
Inductive walks_down (ms : list Q) : Z -> Z -> Prop :=
| down_stop (t : Z) : ~ down_guard ms t -> walks_down ms t t
| down_step (t t' : Z) :
    down_guard ms t -> walks_down ms (t + 1) t' -> walks_down ms t t'.

(** Drop resolution as the specification words it: walk up from
    [sourceIndex]; walk down from there only if the upward walk did not
    move. *)
Definition spec_resolution (ms : list Q) (s t : Z) : Prop :=
  exists up,
    walks_up ms s up
    /\ ((up <> s /\ t = up) \/ (up = s /\ walks_down ms s t)).

(** A read that falls inside the array it reads. *)
Definition in_bounds (ms : list Q) (rows : list Element) (a : Access)
  : Prop :=
  match a with
  | ReadMovement i => (0 <= i < Z.of_nat (List.length ms))%Z
  | ReadRow i => (0 <= i < Z.of_nat (List.length rows))%Z
  end.

(** ** Runs of the controller *)

(** The offsets [dx, dy] the mousemove handler computes for [evt]. *)
Definition delta (evt : MouseEvent) (ctx : TableDndContext) : Q * Q :=
  let '(startX, startY) := startPosition ctx in
  (clientX evt - startX, clientY evt - startY).

(** A pointer-move on which the activation gate answers false. *)
Definition gate_rejects (options : TableDndSortableOptions)
  (ctx : TableDndContext) (i : Input) : Prop :=
  match i with
  | MouseMove _ evt =>
      onBeforeDragActivate options evt (delta evt ctx) ctx = false
  | _ => False
  end.

(** Anything but a pointer-down that the pre-start gate accepts. *)
Definition no_accepted_down (options : TableDndSortableOptions) (i : Input)
  : Prop :=
  match i with
  | MouseDown evt => onBeforeDragStart options evt = false
  | _ => True
  end.

(** A style write of [move]. *)
Definition is_style_move (e : Effect) : Prop :=
  match e with
  | StyleMove _ _ _ _ => True
  | _ => False
  end.

(** What holds of a context between two handlers: once activated it has
    its snapshot and its movement sequence, parallel to the rows. *)
Definition well_formed (ctx : TableDndContext) : Prop :=
  activated ctx = true ->
  exists snap ms,
    snapshot ctx = Some snap
    /\ movememtSeq ctx = Some ms
    /\ List.length (rowSeq snap) = List.length (bottomSeq snap)
    /\ List.length ms = List.length (bottomSeq snap).

(** Every context the controller holds is well formed. *)
Definition consistent (st : State) : Prop :=
  match context st with
  | Some ctx => well_formed ctx
  | None => True
  end.

(** ** Sample documents and gestures *)

(** The row with identity [n]. *)
Definition tr (n : nat) : Element := {| node_id := n; tagName := "TR" |}.

(** Five rows, each 40 pixels high. *)
Definition five_rows : Dom :=
  {| query_tr := [tr 0; tr 1; tr 2; tr 3; tr 4];
     height := fun _ => 40 |}.

(** What activation records on [five_rows] when row 2 is the source. *)
Definition snapshot_5x40 : Snapshot :=
  {| sourceIndex := 2;
     sourceHeight := 40;
     sourceMidPoint := Some 140;
     rowSeq := [tr 0; tr 1; tr 2; tr 3; tr 4];
     bottomSeq := [40; 80; 120; 160; 200] |}.

(** A context as [activate] leaves it, before the first [move]. *)
Definition activated_with (snap : Snapshot) (src : Element)
  : TableDndContext :=
  {| startPosition := (0, 0);
     activated := true;
     source := src;
     snapshot := Some snap;
     movememtSeq := None;
     resolved := None |}.

(** The context after the move by 45 on the five rows. *)
Definition moved_45 : TableDndContext :=
  {| startPosition := (0, 0);
     activated := true;
     source := tr 2;
     snapshot := Some snapshot_5x40;
     movememtSeq := Some (newMovementSeq snapshot_5x40 45);
     resolved := None |}.

(** Three rows of heights 40, 40 and 0, the first one dragged: rows 1
    and 2 share the bottom line 80. *)
Definition tie_rows : Dom :=
  {| query_tr := [tr 0; tr 1; tr 2];
     height := fun el => if Nat.eqb (node_id el) 2 then 0 else 40 |}.


(** The table the listeners are registered on. *)
Definition table_el : Element := {| node_id := 100; tagName := "TABLE" |}.

(** A cell of row [n]. *)
Definition td_in_row (n : nat) : Element :=
  {| node_id := 10 + n; tagName := "TD" |}.

(** A pointer-down in a cell of row 2 of the five rows. *)
Definition press_row2 : MouseEvent :=
  {| clientX := 0; clientY := 0;
     target_chain := [td_in_row 2; tr 2; table_el];
     currentTarget := table_el |}.

(** A pointer-move 5 pixels below [press_row2]. *)
Definition nudge : MouseEvent :=
  {| clientX := 0; clientY := 5;
     target_chain := [td_in_row 2; tr 2; table_el];
     currentTarget := table_el |}.

(** A pointer-move 45 pixels below [press_row2]. *)
Definition long_pull : MouseEvent :=
  {| clientX := 0; clientY := 45;
     target_chain := [td_in_row 2; tr 2; table_el];
     currentTarget := table_el |}.

(** The state [press_row2] leads to under the default options. *)
Definition armed_state : State :=
  set_context setup (Some (fst (start (tr 2) (0, 0)))).

(** Options whose pre-start gate rejects every pointer-down. *)
Definition veto_options : TableDndSortableOptions :=
  assign_options
    {| opt_onBeforeDragStart := Some (fun _ => false);
       opt_onBeforeDragActivate := None |}.

(** ** Vocabulary of the further properties *)


(** The context after [moved_45] is moved back to offset 0. *)
Definition moved_back : TableDndContext :=
  {| startPosition := (0, 0);
     activated := true;
     source := tr 2;
     snapshot := Some snapshot_5x40;
     movememtSeq := Some (newMovementSeq snapshot_5x40 0);
     resolved := None |}.

(** A row that is not among the five rows, and the context after a
    move by 45 when activation found that row missing. *)
Definition stray_row : Element := tr 7.

Definition stray_moved : TableDndContext :=
  {| startPosition := (0, 0);
     activated := true;
     source := stray_row;
     snapshot := Some (take_snapshot five_rows stray_row);
     movememtSeq := Some [0; 0; 0; 0; 0];
     resolved := None |}.

(** Neither a row nor the table: an element the walk of the pointer-down
    handler steps over. *)
Definition stepped_over (table : Element) (el : Element) : Prop :=
  tagName el <> "TR"%string /\ el <> table.

(** A pointer-move that keeps within 10 pixels of the start line, or
    that travels no more than twice as far vertically as
    horizontally. *)
Definition small_or_sideways (ctx : TableDndContext) (i : Input) : Prop :=
  match i with
  | MouseMove _ evt =>
      let '(dx, dy) := delta evt ctx in
      Qabs dy <= 10 \/ Qabs dy <= 2 * Qabs dx
  | _ => False
  end.

(** A pointer-down on the table's own border, and one in a cell of a row
    that encloses the table. *)
Definition outer_row : Element := {| node_id := 200; tagName := "TR" |}.

Definition press_border : MouseEvent :=
  {| clientX := 0; clientY := 0;
     target_chain := [table_el; outer_row];
     currentTarget := table_el |}.






(** The controller in the middle of the drag of [moved_45]. *)
Definition dragging_state : State := set_context setup (Some moved_45).





(** The displacement [m] of row [i] differs from the one recorded for it
    in the previous movement sequence; from 0 when there is no previous
    sequence. *)
Definition changed_from (old : option (list Q)) (i : nat) (m : Q) : Prop :=
  match old with
  | Some ms =>
      match nth_error ms i with
      | Some o => ~ o == m
      | None => True
      end
  | None => ~ 0 == m
  end.

(** The style write [move] performs for row [i] of the snapshot. *)
Definition style_write (snap : Snapshot) (i : nat) (row : Element) (m : Q)
  : Effect :=
  if (Z.of_nat i =? sourceIndex snap)%Z
  then StyleMove row "100" (Some "none"%string) m
  else StyleMove row "0" None m.

(** * Properties *)

(** ** Numbers and arrays *)

Lemma gtb_true (x y : Q) : Num.gtb x y = true <-> y < x.
Proof.
  unfold Num.gtb. rewrite negb_true_iff, <- not_true_iff_false, Qle_bool_iff.
  split; intro H; lra.
Qed.

Lemma gtb_false (x y : Q) : Num.gtb x y = false <-> x <= y.
Proof.
  unfold Num.gtb. rewrite negb_false_iff, Qle_bool_iff. tauto.
Qed.

Lemma ltb_true (x y : Q) : Num.ltb x y = true <-> x < y.
Proof. unfold Num.ltb. apply gtb_true. Qed.


Lemma nth_error_map_index {A B : Type} (f : A -> Z -> B) (a : list A) :
  forall (n : nat) (k : Z),
    nth_error (map_index f k a) n
    = option_map (fun x => f x (k + Z.of_nat n)%Z) (nth_error a n).
Proof.
  induction a as [|x rest IH]; intros [|n] k; simpl; try reflexivity.
  - rewrite Z.add_0_r. reflexivity.
  - rewrite IH. destruct (nth_error rest n); simpl; [|reflexivity].
    f_equal. f_equal. lia.
Qed.

Lemma length_map_index {A B : Type} (f : A -> Z -> B) (a : list A) :
  forall k, List.length (map_index f k a) = List.length a.
Proof.
  induction a as [|x rest IH]; intro k; simpl; [reflexivity|].
  rewrite IH. reflexivity.
Qed.

Lemma js_index_map_index {A B : Type} (f : A -> Z -> B) (a : list A) (i : Z) :
  js_index (map_index f 0 a) i = option_map (fun x => f x i) (js_index a i).
Proof.
  unfold js_index. destruct (i <? 0)%Z eqn:Hi; [reflexivity|].
  apply Z.ltb_ge in Hi. rewrite nth_error_map_index.
  rewrite Z.add_0_l, Z2Nat.id by assumption. reflexivity.
Qed.

Lemma js_index_Some_range {A : Type} (a : list A) (i : Z) (x : A) :
  js_index a i = Some x -> (0 <= i < Z.of_nat (List.length a))%Z.
Proof.
  unfold js_index. destruct (i <? 0)%Z eqn:Hi; [discriminate|].
  apply Z.ltb_ge in Hi. intro H.
  assert (Hn : (Z.to_nat i < List.length a)%nat).
  { apply nth_error_Some. congruence. }
  lia.
Qed.

Lemma js_index_in_range {A : Type} (a : list A) (i : Z) :
  (0 <= i < Z.of_nat (List.length a))%Z -> exists x, js_index a i = Some x.
Proof.
  intros [H0 H1]. unfold js_index.
  destruct (i <? 0)%Z eqn:Hi; [apply Z.ltb_lt in Hi; lia|].
  destruct (nth_error a (Z.to_nat i)) as [x|] eqn:Hx; [eauto|].
  apply nth_error_None in Hx. lia.
Qed.

(** ** Displacement on a move *)



Lemma move_movememtSeq (dy : Q) (ctx ctx' : TableDndContext)
  (snap : Snapshot) (effs : list Effect) :
  snapshot ctx = Some snap ->
  move dy ctx = Some (ctx', effs) ->
  movememtSeq ctx' = Some (newMovementSeq snap dy)
  /\ snapshot ctx' = Some snap
  /\ activated ctx' = activated ctx.
Proof.
  unfold move. intros Hs. rewrite Hs.
  destruct (restyle snap (movememtSeq ctx) 0 (newMovementSeq snap dy));
    [|discriminate].
  intro H. injection H as <- _. simpl. auto.
Qed.



(** ** Five rows of height 40, the third one dragged *)

(** Activation on the five rows measures what [snapshot_5x40] records. *)
Lemma take_snapshot_five_rows :
  let snap := take_snapshot five_rows (tr 2) in
  sourceIndex snap = 2%Z
  /\ sourceHeight snap = 40
  /\ rowSeq snap = rowSeq snapshot_5x40
  /\ bottomSeq snap = bottomSeq snapshot_5x40
  /\ exists mid, sourceMidPoint snap = Some mid /\ mid == 140.
Proof.
  repeat split. eexists. split; [reflexivity|]. reflexivity.
Qed.

(** C3.  Five rows of height 40, row 2 dragged down by 45: the move
    leaves rows 0, 1 and 4 at 0, gives row 2 the offset 45 and row 3 the
    displacement -40, and the drop that follows resolves
    [targetIndex = 3]. *)
Theorem C3_drag_down_45 :
  newMovementSeq snapshot_5x40 45 = [0; 0; 45; (-40) # 1; 0]
  /\ option_map fst (resolve (newMovementSeq snapshot_5x40 45) 2) = Some 3%Z
  /\ exists ctx' effs ctx'',
       move 45 (activated_with snapshot_5x40 (tr 2)) = Some (ctx', effs)
       /\ movememtSeq ctx' = Some [0; 0; 45; (-40) # 1; 0]
       /\ drop five_rows ctx'
          = Some (map StyleReset (query_tr five_rows) ++ [OnDrop ctx''])
       /\ resolved ctx'' = Some (3%Z, Some (tr 3)).
Proof.
  split; [reflexivity|]. split; [reflexivity|].
  do 3 eexists. split; [reflexivity|]. split; [reflexivity|].
  split; reflexivity.
Qed.

(** C6.  Same rows, row 2 dragged by 10 from the snapshot that activation
    takes: every displacement other than the source's is 0 and the drop
    resolves [targetIndex = 2]. *)
Theorem C6_drag_down_10 :
  let snap := take_snapshot five_rows (tr 2) in
  newMovementSeq snap 10 = [0; 0; 10; 0; 0]
  /\ option_map fst (resolve (newMovementSeq snap 10) (sourceIndex snap))
     = Some 2%Z
  /\ exists ctx' effs ctx'',
       move 10 (activated_with snap (tr 2)) = Some (ctx', effs)
       /\ movememtSeq ctx' = Some [0; 0; 10; 0; 0]
       /\ drop five_rows ctx'
          = Some (map StyleReset (query_tr five_rows) ++ [OnDrop ctx''])
       /\ resolved ctx'' = Some (2%Z, Some (tr 2)).
Proof.
  split; [reflexivity|]. split; [reflexivity|].
  do 3 eexists. split; [reflexivity|]. split; [reflexivity|].
  split; reflexivity.
Qed.

(** ** Drop resolution *)

Lemma is_positive_spec (v : option Q) :
  is_positive v = true <-> exists m, v = Some m /\ 0 < m.
Proof.
  destruct v as [m|]; simpl.
  - rewrite gtb_true. split.
    + intro H. exists m. auto.
    + intros [m' [E H]]. injection E as ->. exact H.
  - split; [discriminate|]. intros [m [E _]]. discriminate.
Qed.

Lemma is_negative_spec (v : option Q) :
  is_negative v = true <-> exists m, v = Some m /\ m < 0.
Proof.
  destruct v as [m|]; simpl.
  - rewrite ltb_true. split.
    + intro H. exists m. auto.
    + intros [m' [E H]]. injection E as ->. exact H.
  - split; [discriminate|]. intros [m [E _]]. discriminate.
Qed.

Lemma up_guard_dec (ms : list Q) (t : Z) :
  (0 <? t)%Z && is_positive (js_index ms (t - 1)) = true <-> up_guard ms t.
Proof.
  unfold up_guard.
  rewrite andb_true_iff, Z.ltb_lt, is_positive_spec. tauto.
Qed.

Lemma down_guard_dec (ms : list Q) (t : Z) :
  (t <? Z.of_nat (List.length ms) - 1)%Z
  && is_negative (js_index ms (t + 1)) = true
  <-> down_guard ms t.
Proof.
  unfold down_guard.
  rewrite andb_true_iff, Z.ltb_lt, is_negative_spec. tauto.
Qed.

Lemma walks_up_deterministic (ms : list Q) (t a b : Z) :
  walks_up ms t a -> walks_up ms t b -> a = b.
Proof.
  intro Ha. revert b.
  induction Ha as [t Hn|t a Hg Ha IH]; intros b Hb;
    inversion Hb; subst; try contradiction; auto.
Qed.

Lemma walks_down_deterministic (ms : list Q) (t a b : Z) :
  walks_down ms t a -> walks_down ms t b -> a = b.
Proof.
  intro Ha. revert b.
  induction Ha as [t Hn|t a Hg Ha IH]; intros b Hb;
    inversion Hb; subst; try contradiction; auto.
Qed.

(** With more fuel than the distance to row 0 the upward walk ends; it
    ends where the relation says, never below row 0 when started at or
    above it, and reads only entries between row 0 and its start. *)
Lemma walk_up_ends (ms : list Q) :
  forall (fuel : nat) (t : Z) (log : list Access),
    (Z.to_nat t < fuel)%nat ->
    exists t' reads,
      walk_up fuel ms t log = Some (t', log ++ reads)
      /\ walks_up ms t t'
      /\ (t' <= t)%Z
      /\ ((0 <= t)%Z -> (0 <= t')%Z)
      /\ Forall (fun a => exists i, a = ReadMovement i /\ (0 <= i < t)%Z)
           reads.
Proof.
  induction fuel as [|fuel IH]; intros t log Hf; [lia|].
  simpl. destruct (0 <? t)%Z eqn:Ht.
  - apply Z.ltb_lt in Ht.
    destruct (is_positive (js_index ms (t - 1))) eqn:Hp.
    + destruct (IH (t - 1)%Z (log ++ [ReadMovement (t - 1)]))
        as (t' & reads & Hw & Hr & Hle & Hge & Hall); [lia|].
      exists t', (ReadMovement (t - 1) :: reads).
      rewrite Hw, <- app_assoc. simpl.
      split; [reflexivity|]. split.
      { apply up_step; [|exact Hr]. apply up_guard_dec.
        rewrite Hp. apply Z.ltb_lt in Ht. rewrite Ht. reflexivity. }
      split; [lia|]. split; [intros _; apply Hge; lia|].
      constructor.
      * exists (t - 1)%Z. split; [reflexivity|lia].
      * eapply Forall_impl; [|exact Hall].
        intros a (i & -> & Hi). exists i. split; [reflexivity|lia].
    + exists t, [ReadMovement (t - 1)].
      split; [reflexivity|]. split.
      { apply up_stop. intro Hg. apply up_guard_dec in Hg.
        rewrite Hp, andb_false_r in Hg. discriminate. }
      split; [lia|]. split; [auto|].
      constructor; [|constructor].
      exists (t - 1)%Z. split; [reflexivity|lia].
  - exists t, []. rewrite app_nil_r.
    split; [reflexivity|]. split.
    { apply up_stop. intro Hg. apply up_guard_dec in Hg.
      rewrite Ht in Hg. discriminate. }
    split; [lia|]. split; [auto|constructor].
Qed.

Lemma walk_down_ends (ms : list Q) :
  forall (fuel : nat) (t : Z) (log : list Access),
    (Z.to_nat (Z.of_nat (List.length ms) - 1 - t) < fuel)%nat ->
    exists t' reads,
      walk_down fuel ms t log = Some (t', log ++ reads)
      /\ walks_down ms t t'
      /\ (t <= t')%Z
      /\ ((t <= Z.of_nat (List.length ms) - 1)%Z ->
          (t' <= Z.of_nat (List.length ms) - 1)%Z)
      /\ Forall
           (fun a => exists i,
              a = ReadMovement i /\ (t < i < Z.of_nat (List.length ms))%Z)
           reads.
Proof.
  induction fuel as [|fuel IH]; intros t log Hf; [lia|].
  simpl. destruct (t <? Z.of_nat (List.length ms) - 1)%Z eqn:Ht.
  - apply Z.ltb_lt in Ht.
    destruct (is_negative (js_index ms (t + 1))) eqn:Hp.
    + destruct (IH (t + 1)%Z (log ++ [ReadMovement (t + 1)]))
        as (t' & reads & Hw & Hr & Hle & Hge & Hall); [lia|].
      exists t', (ReadMovement (t + 1) :: reads).
      rewrite Hw, <- app_assoc. simpl.
      split; [reflexivity|]. split.
      { apply down_step; [|exact Hr]. apply down_guard_dec.
        rewrite Hp. apply Z.ltb_lt in Ht. rewrite Ht. reflexivity. }
      split; [lia|]. split; [intros _; apply Hge; lia|].
      constructor.
      * exists (t + 1)%Z. split; [reflexivity|lia].
      * eapply Forall_impl; [|exact Hall].
        intros a (i & -> & Hi). exists i. split; [reflexivity|lia].
    + exists t, [ReadMovement (t + 1)].
      split; [reflexivity|]. split.
      { apply down_stop. intro Hg. apply down_guard_dec in Hg.
        rewrite Hp, andb_false_r in Hg. discriminate. }
      split; [lia|]. split; [auto|].
      constructor; [|constructor].
      exists (t + 1)%Z. split; [reflexivity|lia].
  - exists t, []. rewrite app_nil_r.
    split; [reflexivity|]. split.
    { apply down_stop. intro Hg. apply down_guard_dec in Hg.
      rewrite Ht in Hg. discriminate. }
    split; [lia|]. split; [auto|constructor].
Qed.

(** [resolve] always has fuel enough, and its answer is the one the two
    walks define. *)
Lemma resolve_total (ms : list Q) (s : Z) :
  exists t reads,
    resolve ms s = Some (t, reads ++ [ReadRow t])
    /\ spec_resolution ms s t
    /\ ((0 <= s < Z.of_nat (List.length ms))%Z ->
        (0 <= t <= Z.of_nat (List.length ms) - 1)%Z
        /\ Forall
             (fun a => exists i,
                a = ReadMovement i /\ (0 <= i < Z.of_nat (List.length ms))%Z)
             reads).
Proof.
  unfold resolve.
  destruct (walk_up_ends ms (S (Z.to_nat s)) s [])
    as (up & r1 & Hw1 & Hu & Hle & Hge & Hall1); [lia|].
  rewrite Hw1. simpl app.
  destruct (up =? s)%Z eqn:He.
  - apply Z.eqb_eq in He. subst up.
    destruct (walk_down_ends ms
                (S (Z.to_nat (Z.of_nat (List.length ms) - 1 - s))) s r1)
      as (t & r2 & Hw2 & Hd & Hle2 & Hge2 & Hall2); [lia|].
    rewrite Hw2. exists t, (r1 ++ r2).
    split; [reflexivity|]. split.
    { exists s. split; [exact Hu|]. right. split; [reflexivity|exact Hd]. }
    intros Hs. split; [lia|].
    apply Forall_app. split.
    + eapply Forall_impl; [|exact Hall1].
      intros a (i & -> & Hi). exists i. split; [reflexivity|lia].
    + eapply Forall_impl; [|exact Hall2].
      intros a (i & -> & Hi). exists i. split; [reflexivity|lia].
  - apply Z.eqb_neq in He. exists up, r1.
    split; [reflexivity|]. split.
    { exists up. split; [exact Hu|]. left. split; [exact He|reflexivity]. }
    intros Hs. split; [lia|].
    eapply Forall_impl; [|exact Hall1].
    intros a (i & -> & Hi). exists i. split; [reflexivity|lia].
Qed.

Lemma spec_resolution_deterministic (ms : list Q) (s a b : Z) :
  spec_resolution ms s a -> spec_resolution ms s b -> a = b.
Proof.
  intros (ua & Hua & Ha) (ub & Hub & Hb).
  assert (E : ua = ub) by (eapply walks_up_deterministic; eassumption).
  subst ub.
  destruct Ha as [[Hne ->]|[-> Hda]]; destruct Hb as [[Hne' ->]|[E Hdb]];
    try reflexivity; try contradiction; try congruence.
  eapply walks_down_deterministic; eassumption.
Qed.

Lemma drop_activated (dom : Dom) (ctx : TableDndContext) (snap : Snapshot)
  (ms : list Q) (t : Z) (log : list Access) :
  activated ctx = true ->
  snapshot ctx = Some snap ->
  movememtSeq ctx = Some ms ->
  resolve ms (sourceIndex snap) = Some (t, log) ->
  exists ctx',
    drop dom ctx = Some (map StyleReset (query_tr dom) ++ [OnDrop ctx'])
    /\ resolved ctx' = Some (t, js_index (rowSeq snap) t)
    /\ snapshot ctx' = Some snap
    /\ movememtSeq ctx' = Some ms
    /\ activated ctx' = true.
Proof.
  intros Ha Hs Hm Hr. unfold drop. rewrite Ha, Hs, Hm, Hr.
  eexists. split; [reflexivity|]. simpl. auto.
Qed.

(** C2.  On the drop of an activated context the target index is the one
    reached by starting at [sourceIndex], decrementing while the index is
    above 0 and the entry just above is strictly positive and, only when
    that did not move, incrementing while the index is below
    [length - 1] and the entry just below is strictly negative.  That
    index is unique and is [resolve movememtSeq sourceIndex]: it depends
    on nothing but the movement sequence and the source index. *)
Theorem C2_drop_resolution
  (dom : Dom) (ctx : TableDndContext) (snap : Snapshot) (ms : list Q) :
  activated ctx = true ->
  snapshot ctx = Some snap ->
  movememtSeq ctx = Some ms ->
  (0 <= sourceIndex snap < Z.of_nat (List.length ms))%Z ->
  exists t,
    option_map fst (resolve ms (sourceIndex snap)) = Some t
    /\ spec_resolution ms (sourceIndex snap) t
    /\ (forall t', spec_resolution ms (sourceIndex snap) t' -> t' = t)
    /\ exists ctx',
         drop dom ctx
         = Some (map StyleReset (query_tr dom) ++ [OnDrop ctx'])
         /\ resolved ctx' = Some (t, js_index (rowSeq snap) t).
Proof.
  intros Ha Hs Hm _.
  destruct (resolve_total ms (sourceIndex snap))
    as (t & reads & Hr & Hspec & _).
  exists t. split; [rewrite Hr; reflexivity|]. split; [exact Hspec|].
  split.
  - intros t' Ht'. eapply spec_resolution_deterministic; eassumption.
  - destruct (drop_activated dom ctx snap ms t _ Ha Hs Hm Hr)
      as (ctx' & Hd & Hres & _).
    exists ctx'. split; assumption.
Qed.

Lemma C2_drop_resolution_witness :
  exists t,
    option_map fst (resolve [0; 0; 45; (-40) # 1; 0] 2) = Some t
    /\ spec_resolution [0; 0; 45; (-40) # 1; 0] 2 t
    /\ (forall t', spec_resolution [0; 0; 45; (-40) # 1; 0] 2 t' -> t' = t)
    /\ exists ctx',
         drop five_rows
           {| startPosition := (0, 0); activated := true; source := tr 2;
              snapshot := Some snapshot_5x40;
              movememtSeq := Some [0; 0; 45; (-40) # 1; 0];
              resolved := None |}
         = Some (map StyleReset (query_tr five_rows) ++ [OnDrop ctx'])
         /\ resolved ctx' = Some (t, js_index (rowSeq snapshot_5x40) t).
Proof.
  apply (C2_drop_resolution five_rows
           {| startPosition := (0, 0); activated := true; source := tr 2;
              snapshot := Some snapshot_5x40;
              movememtSeq := Some [0; 0; 45; (-40) # 1; 0];
              resolved := None |}
           snapshot_5x40 [0; 0; 45; (-40) # 1; 0]).
  - reflexivity.
  - reflexivity.
  - reflexivity.
  - simpl. lia.
Defined.

(** C10.  When an activated context with a non-empty movement sequence,
    as many rows as movements and [0 <= sourceIndex < length] is dropped,
    the resolved target index lies in [0, length - 1] and every array
    read of the resolution, [movememtSeq[targetIndex - 1]],
    [movememtSeq[targetIndex + 1]] and [rowSeq[targetIndex]], is inside
    its array. *)
Theorem C10_resolution_in_bounds
  (dom : Dom) (ctx : TableDndContext) (snap : Snapshot) (ms : list Q) :
  activated ctx = true ->
  snapshot ctx = Some snap ->
  movememtSeq ctx = Some ms ->
  ms <> [] ->
  List.length (rowSeq snap) = List.length ms ->
  (0 <= sourceIndex snap < Z.of_nat (List.length ms))%Z ->
  exists t log row ctx',
    resolve ms (sourceIndex snap) = Some (t, log)
    /\ (0 <= t <= Z.of_nat (List.length ms) - 1)%Z
    /\ Forall (in_bounds ms (rowSeq snap)) log
    /\ drop dom ctx = Some (map StyleReset (query_tr dom) ++ [OnDrop ctx'])
    /\ resolved ctx' = Some (t, Some row).
Proof.
  intros Ha Hs Hm _ Hlen Hsrc.
  destruct (resolve_total ms (sourceIndex snap))
    as (t & reads & Hr & _ & Hb).
  destruct (Hb Hsrc) as [Ht Hall].
  destruct (js_index_in_range (rowSeq snap) t) as [row Hrow]; [lia|].
  destruct (drop_activated dom ctx snap ms t _ Ha Hs Hm Hr)
    as (ctx' & Hd & Hres & _).
  exists t, (reads ++ [ReadRow t]), row, ctx'.
  split; [exact Hr|]. split; [exact Ht|]. split.
  - apply Forall_app. split.
    + eapply Forall_impl; [|exact Hall].
      intros a (i & -> & Hi). exact Hi.
    + constructor; [|constructor]. simpl. lia.
  - split; [exact Hd|]. rewrite Hres, Hrow. reflexivity.
Qed.

Lemma C10_resolution_in_bounds_witness :
  exists t log row ctx',
    resolve [0; 0; 10; 0; 0] 2 = Some (t, log)
    /\ (0 <= t <= Z.of_nat (List.length [0; 0; 10; 0; 0]) - 1)%Z
    /\ Forall (in_bounds [0; 0; 10; 0; 0] (rowSeq snapshot_5x40)) log
    /\ drop five_rows
         {| startPosition := (0, 0); activated := true; source := tr 2;
            snapshot := Some snapshot_5x40;
            movememtSeq := Some [0; 0; 10; 0; 0];
            resolved := None |}
       = Some (map StyleReset (query_tr five_rows) ++ [OnDrop ctx'])
    /\ resolved ctx' = Some (t, Some row).
Proof.
  apply (C10_resolution_in_bounds five_rows
           {| startPosition := (0, 0); activated := true; source := tr 2;
              snapshot := Some snapshot_5x40;
              movememtSeq := Some [0; 0; 10; 0; 0];
              resolved := None |}
           snapshot_5x40 [0; 0; 10; 0; 0]).
  - reflexivity.
  - reflexivity.
  - reflexivity.
  - discriminate.
  - reflexivity.
  - simpl. lia.
Defined.

(** ** Which rows are displaced as the drag proceeds *)













(** ** The default activation gate *)

Lemma Qeq_bool_false (x y : Q) : Qeq_bool x y = false <-> ~ x == y.
Proof.
  rewrite <- not_true_iff_false, Qeq_bool_iff. tauto.
Qed.

(** The gate in terms of the offsets alone: more than 10 pixels of
    vertical travel, and more than twice as much vertical as horizontal
    travel. *)
Lemma default_gate_slope (evt : MouseEvent) (dx dy : Q)
  (ctx : TableDndContext) :
  onBeforeDragActivate defaultOptions evt (dx, dy) ctx = true
  <-> 10 < Qabs dy /\ 2 * Qabs dx < Qabs dy.
Proof.
  unfold defaultOptions. cbn [onBeforeDragActivate].
  rewrite andb_true_iff, gtb_true. unfold Num.div.
  destruct (Qeq_bool dx 0) eqn:Hdx.
  - apply Qeq_bool_iff in Hdx.
    assert (Hax : Qabs dx == 0) by (rewrite Hdx; reflexivity).
    destruct (Qeq_bool dy 0) eqn:Hdy.
    + apply Qeq_bool_iff in Hdy.
      assert (Hay : Qabs dy == 0) by (rewrite Hdy; reflexivity).
      cbn [Num.abs Num.gt]. split; intros [H1 H2]; [discriminate|lra].
    + destruct (Num.gtb dy 0); cbn [Num.abs Num.gt]; split; intros [H1 H2];
        split; auto; lra.
  - apply Qeq_bool_false in Hdx. cbn [Num.abs Num.gt]. rewrite gtb_true.
    assert (Hpos : 0 < Qabs dx).
    { destruct (Q_dec dx 0) as [[H|H]|H]; [| |contradiction];
        apply Qabs_case; intros; lra. }
    assert (Hq : Qabs (dy / dx) * Qabs dx == Qabs dy).
    { rewrite <- Qabs_Qmult. apply Qabs_wd. field. exact Hdx. }
    split; intros [H1 H2]; split; try exact H1.
    + rewrite <- Hq. nra.
    + rewrite <- Hq in H2. nra.
Qed.



(** ** The controller as a state machine *)

Lemma set_context_same (st : State) (c : option TableDndContext) :
  context st = c -> set_context st c = st.
Proof. intros <-. destruct st. reflexivity. Qed.

Lemma run_app (options : TableDndSortableOptions) (a b : list Input) :
  forall st,
    run options (a ++ b) st
    = match run options a st with
      | None => None
      | Some (st1, effs1) =>
          match run options b st1 with
          | None => None
          | Some (st2, effs2) => Some (st2, effs1 ++ effs2)
          end
      end.
Proof.
  induction a as [|i a IH]; intro st; simpl.
  - destruct (run options b st) as [[st2 effs2]|]; reflexivity.
  - destruct (step options i st) as [[st1 effs1]|]; [|reflexivity].
    rewrite IH.
    destruct (run options a st1) as [[st2 effs2]|]; [|reflexivity].
    destruct (run options b st2) as [[st3 effs3]|]; [|reflexivity].
    rewrite app_assoc. reflexivity.
Qed.

Lemma restyle_effects (snap : Snapshot) (old : option (list Q)) :
  forall (pending : list Q) (index : nat) (styles : list Effect),
    restyle snap old index pending = Some styles ->
    Forall is_style_move styles.
Proof.
  induction pending as [|m rest IH]; intros index styles; simpl.
  - intro E. injection E as <-. constructor.
  - destruct (match match old with
                    | Some ms => nth_error ms index
                    | None => Some 0
                    end with
              | Some o => negb (Qeq_bool o m)
              | None => true
              end).
    + destruct (nth_error (rowSeq snap) index) as [row|]; [|discriminate].
      destruct (restyle snap old (S index) rest) as [tail|] eqn:Et;
        [|discriminate].
      simpl. intro E. injection E as <-.
      constructor; [exact I|]. eapply IH. exact Et.
    + apply IH.
Qed.

(** A pointer-move while the context is armed and the gate answers false
    changes nothing and performs no effect. *)
Lemma step_move_rejected (options : TableDndSortableOptions) (st : State)
  (ctx : TableDndContext) (i : Input) :
  context st = Some ctx ->
  activated ctx = false ->
  gate_rejects options ctx i ->
  step options i st = Some (st, []).
Proof.
  intros Hc Ha Hg. destruct i as [evt|dom evt|dom|]; try contradiction.
  simpl in Hg. simpl. destruct (mousemoveListener st); [|reflexivity].
  unfold on_mousemove. rewrite Hc.
  unfold delta in Hg. destruct (startPosition ctx) as [startX startY].
  rewrite Ha, Hg. simpl. rewrite Ha.
  rewrite set_context_same by exact Hc. reflexivity.
Qed.

Lemma run_moves_rejected (options : TableDndSortableOptions) (st : State)
  (ctx : TableDndContext) (moves : list Input) :
  context st = Some ctx ->
  activated ctx = false ->
  Forall (gate_rejects options ctx) moves ->
  run options moves st = Some (st, []).
Proof.
  intros Hc Ha. induction 1 as [|i moves Hi _ IH]; simpl; [reflexivity|].
  rewrite (step_move_rejected options st ctx i Hc Ha Hi), IH. reflexivity.
Qed.

(** Only [drop] on an activated context calls [onDrop]. *)
Lemma step_OnDrop (options : TableDndSortableOptions) (i : Input)
  (st st' : State) (effs : list Effect) (c : TableDndContext) :
  step options i st = Some (st', effs) ->
  In (OnDrop c) effs ->
  exists dom ctx,
    i = MouseUp dom /\ context st = Some ctx /\ activated ctx = true.
Proof.
  destruct i as [evt|dom evt|dom|]; simpl.
  - destruct (mousedownListener st).
    + unfold on_mousedown.
      destruct (negb (onBeforeDragStart options evt)).
      { intro E. injection E as <- <-. contradiction. }
      destruct (find_source (target_chain evt) (currentTarget evt))
        as [src|].
      * destruct (negb (String.eqb (tagName src) "TR")).
        { intro E. injection E as <- <-. contradiction. }
        simpl. intro E. injection E as <- <-.
        intros [H|[]]. discriminate.
      * intro E. injection E as <- <-. contradiction.
    + intro E. injection E as <- <-. contradiction.
  - destruct (mousemoveListener st).
    + unfold on_mousemove. destruct (context st) as [ctx|].
      * destruct (startPosition ctx) as [startX startY].
        destruct (negb (activated ctx)
                  && onBeforeDragActivate options evt
                       (clientX evt - startX, clientY evt - startY) ctx)
          eqn:Hg.
        -- simpl. unfold move. simpl.
           destruct (restyle _ _ 0 _) as [styles|] eqn:Er; [|discriminate].
           intro E. injection E as <- <-.
           apply restyle_effects in Er.
           intros [H|[H|H]]; try discriminate.
           apply in_app_or in H. destruct H as [H|[H|[]]];
             [|discriminate].
           rewrite Forall_forall in Er. apply Er in H. contradiction.
        -- destruct (activated ctx) eqn:Ha.
           ++ unfold move. destruct (snapshot ctx) as [snap|]; [|discriminate].
              destruct (restyle _ _ 0 _) as [styles|] eqn:Er; [|discriminate].
              intro E. injection E as <- <-.
              apply restyle_effects in Er. simpl.
              intros [H|H]; try discriminate.
              apply in_app_or in H. destruct H as [H|[H|[]]];
                [|discriminate].
              rewrite Forall_forall in Er. apply Er in H. contradiction.
           ++ intro E. injection E as <- <-. contradiction.
      * intro E. injection E as <- <-. contradiction.
    + intro E. injection E as <- <-. contradiction.
  - destruct (mouseupListener st).
    + unfold on_mouseup. destruct (context st) as [ctx|].
      * unfold drop. destruct (activated ctx) eqn:Ha.
        -- intros _ _. exists dom, ctx. auto.
        -- intro E. injection E as <- <-. contradiction.
      * intro E. injection E as <- <-. contradiction.
    + intro E. injection E as <- <-. contradiction.
  - intro E. injection E as <- <-. contradiction.
Qed.

(** C7.  When a context exists that is not activated and every
    pointer-move meets a gate that answers false, the pointer-up that
    follows discards the context and calls nothing, [onDrop] included;
    and whenever a handler does call [onDrop], the context it found had
    [activated] set. *)
Theorem C7_no_drop_without_activation
  (options : TableDndSortableOptions) (st : State) (ctx : TableDndContext)
  (moves : list Input) (dom : Dom) :
  mouseupListener st = true ->
  context st = Some ctx ->
  activated ctx = false ->
  Forall (gate_rejects options ctx) moves ->
  run options (moves ++ [MouseUp dom]) st = Some (set_context st None, [])
  /\ forall (i : Input) (st0 st1 : State) (effs : list Effect)
            (c : TableDndContext),
       step options i st0 = Some (st1, effs) ->
       In (OnDrop c) effs ->
       exists ctx0, context st0 = Some ctx0 /\ activated ctx0 = true.
Proof.
  intros Hup Hc Ha Hmoves. split.
  - rewrite run_app, (run_moves_rejected options st ctx moves Hc Ha Hmoves).
    simpl. rewrite Hup. unfold on_mouseup, drop. rewrite Hc, Ha.
    reflexivity.
  - intros i st0 st1 effs c Hstep Hin.
    destruct (step_OnDrop options i st0 st1 effs c Hstep Hin)
      as (dom0 & ctx0 & _ & H0 & H1).
    exists ctx0. split; assumption.
Qed.

Lemma press_row2_arms :
  run defaultOptions [MouseDown press_row2] setup
  = Some (armed_state, [OnDragStart (fst (start (tr 2) (0, 0)))]).
Proof. reflexivity. Qed.

Lemma C7_no_drop_without_activation_witness :
  run defaultOptions
    ([MouseMove five_rows nudge; MouseMove five_rows nudge]
     ++ [MouseUp five_rows])
    armed_state
  = Some (set_context armed_state None, []).
Proof.
  apply (C7_no_drop_without_activation defaultOptions armed_state
           (fst (start (tr 2) (0, 0)))
           [MouseMove five_rows nudge; MouseMove five_rows nudge]
           five_rows).
  - reflexivity.
  - reflexivity.
  - reflexivity.
  - repeat constructor.
Defined.

(** C8.  From a state without a context, a pointer-down that
    [onBeforeDragStart] rejects creates no context, and however many
    pointer-moves, pointer-ups and further rejected pointer-downs follow,
    no callback is called at all, neither [onDragActivate] nor [onDrop],
    and there is still no context. *)
Theorem C8_rejected_down_is_silent
  (options : TableDndSortableOptions) (st : State) (evt : MouseEvent)
  (rest : list Input) :
  context st = None ->
  onBeforeDragStart options evt = false ->
  Forall (no_accepted_down options) rest ->
  step options (MouseDown evt) st = Some (st, [])
  /\ exists st',
       run options (MouseDown evt :: rest) st = Some (st', [])
       /\ context st' = None.
Proof.
  intros Hc Hrej Hrest.
  assert (Hrun : forall inputs,
             Forall (no_accepted_down options) inputs ->
             forall s, context s = None ->
             exists s', run options inputs s = Some (s', [])
                        /\ context s' = None).
  { induction 1 as [|i inputs Hi _ IH]; intros s Hs.
    - exists s. split; [reflexivity|exact Hs].
    - assert (Hstep : exists s1, step options i s = Some (s1, [])
                                 /\ context s1 = None).
      { destruct i as [e|d e|d|]; simpl.
        - exists s. split; [|exact Hs].
          destruct (mousedownListener s); [|reflexivity].
          unfold on_mousedown. simpl in Hi. rewrite Hi. reflexivity.
        - exists s. split; [|exact Hs].
          destruct (mousemoveListener s); [|reflexivity].
          unfold on_mousemove. rewrite Hs. reflexivity.
        - exists s. split; [|exact Hs].
          destruct (mouseupListener s); [|reflexivity].
          unfold on_mouseup. rewrite Hs. reflexivity.
        - exists (destroy s). split; [reflexivity|exact Hs]. }
      destruct Hstep as (s1 & Hs1 & Hc1).
      destruct (IH s1 Hc1) as (s' & Hr & Hc').
      exists s'. split; [|exact Hc'].
      simpl. rewrite Hs1, Hr. reflexivity. }
  split.
  - simpl. destruct (mousedownListener st); [|reflexivity].
    unfold on_mousedown. rewrite Hrej. reflexivity.
  - apply Hrun; [|exact Hc]. constructor; [exact Hrej|exact Hrest].
Qed.

Lemma C8_rejected_down_is_silent_witness :
  step veto_options (MouseDown press_row2) setup = Some (setup, [])
  /\ exists st',
       run veto_options
         (MouseDown press_row2
          :: [MouseMove five_rows long_pull; MouseUp five_rows])
         setup
       = Some (st', [])
       /\ context st' = None.
Proof.
  apply (C8_rejected_down_is_silent veto_options setup press_row2
           [MouseMove five_rows long_pull; MouseUp five_rows]).
  - reflexivity.
  - reflexivity.
  - repeat constructor.
Defined.

(** Counterexample to C4 as stated: [destroy] called while a drag is
    armed leaves the context in place. *)
Lemma C4_context_survives_destroy :
  run defaultOptions [MouseDown press_row2; Destroy] setup
  = Some (destroy armed_state, [OnDragStart (fst (start (tr 2) (0, 0)))])
  /\ context (destroy armed_state) <> None.
Proof.
  split; [reflexivity|]. discriminate.
Qed.

(** C4, amended.  [destroy] removes the three listeners and leaves the
    context as it is; after it no input changes the state or calls
    anything, so a pointer-up that follows never calls [onDrop]. *)
Theorem C4_destroy_silences
  (options : TableDndSortableOptions) (st : State) (inputs : list Input) :
  mousedownListener (destroy st) = false
  /\ mousemoveListener (destroy st) = false
  /\ mouseupListener (destroy st) = false
  /\ context (destroy st) = context st
  /\ run options inputs (destroy st) = Some (destroy st, []).
Proof.
  repeat (split; [reflexivity|]).
  induction inputs as [|i inputs IH]; [reflexivity|].
  simpl run.
  assert (Hstep : step options i (destroy st) = Some (destroy st, [])).
  { destruct i; reflexivity. }
  rewrite Hstep, IH. reflexivity.
Qed.

(** ** No handler throws *)

Lemma length_cumulate (hs : list Q) :
  forall b, List.length (cumulate b hs) = List.length hs.
Proof.
  induction hs as [|h hs IH]; intro b; simpl; [reflexivity|].
  rewrite IH. reflexivity.
Qed.

Lemma take_snapshot_parallel (dom : Dom) (src : Element) :
  List.length (rowSeq (take_snapshot dom src))
  = List.length (bottomSeq (take_snapshot dom src)).
Proof.
  simpl. rewrite length_cumulate, length_map. reflexivity.
Qed.

Lemma restyle_total (snap : Snapshot) (old : option (list Q)) :
  forall (pending : list Q) (index : nat),
    (index + List.length pending <= List.length (rowSeq snap))%nat ->
    exists styles, restyle snap old index pending = Some styles.
Proof.
  induction pending as [|m rest IH]; intros index Hlen; simpl.
  - eauto.
  - simpl in Hlen.
    destruct (IH (S index)) as [tail Ht]; [lia|]. rewrite Ht.
    destruct (nth_error (rowSeq snap) index) as [row|] eqn:Hrow.
    + destruct (match match old with
                      | Some ms => nth_error ms index
                      | None => Some 0
                      end with
                | Some o => negb (Qeq_bool o m)
                | None => true
                end); simpl; eauto.
    + apply nth_error_None in Hrow. lia.
Qed.

Lemma move_total (dy : Q) (ctx : TableDndContext) (snap : Snapshot) :
  snapshot ctx = Some snap ->
  List.length (rowSeq snap) = List.length (bottomSeq snap) ->
  exists ctx' effs,
    move dy ctx = Some (ctx', effs)
    /\ (activated ctx = true -> well_formed ctx').
Proof.
  intros Hs Hlen. unfold move. rewrite Hs.
  destruct (restyle_total snap (movememtSeq ctx) (newMovementSeq snap dy) 0)
    as [styles Hst].
  { unfold newMovementSeq. rewrite length_map_index. simpl. lia. }
  rewrite Hst. do 2 eexists. split; [reflexivity|].
  intros Ha _. exists snap, (newMovementSeq snap dy). simpl.
  split; [reflexivity|]. split; [reflexivity|]. split; [exact Hlen|].
  unfold newMovementSeq. apply length_map_index.
Qed.

Lemma step_total (options : TableDndSortableOptions) (i : Input)
  (st : State) :
  consistent st ->
  exists st' effs, step options i st = Some (st', effs) /\ consistent st'.
Proof.
  intro Hinv. destruct i as [evt|dom evt|dom|]; simpl.
  - destruct (mousedownListener st); [|eauto].
    unfold on_mousedown.
    destruct (negb (onBeforeDragStart options evt)); [eauto|].
    destruct (find_source (target_chain evt) (currentTarget evt)) as [src|];
      [|eauto].
    destruct (negb (String.eqb (tagName src) "TR")); [eauto|].
    simpl. do 2 eexists. split; [reflexivity|].
    unfold consistent, well_formed. simpl. discriminate.
  - destruct (mousemoveListener st); [|eauto].
    unfold on_mousemove. pose proof Hinv as Hst. unfold consistent in Hinv.
    destruct (context st) as [ctx|] eqn:Hc; [|eauto].
    destruct (startPosition ctx) as [startX startY].
    destruct (activated ctx) eqn:Ha.
    + simpl. rewrite Ha.
      destruct (Hinv Ha) as (snap & ms & Hs & _ & Hlen & _).
      destruct (move_total (clientY evt - startY) ctx snap Hs Hlen)
        as (ctx' & effs & Hm & Hwf).
      rewrite Hm. do 2 eexists. split; [reflexivity|].
      unfold consistent. simpl. apply Hwf. exact Ha.
    + simpl.
      destruct (onBeforeDragActivate options evt
                  (clientX evt - startX, clientY evt - startY) ctx).
      * simpl.
        destruct (move_total (clientY evt - startY)
                    (fst (activate dom ctx))
                    (take_snapshot dom (source ctx)) eq_refl
                    (take_snapshot_parallel dom (source ctx)))
          as (ctx' & effs & Hm & Hwf).
        simpl in Hm. rewrite Hm. do 2 eexists. split; [reflexivity|].
        unfold consistent. simpl. apply Hwf. reflexivity.
      * rewrite Ha. do 2 eexists. split; [reflexivity|].
        unfold consistent. simpl. exact Hinv.
  - destruct (mouseupListener st); [|eauto].
    unfold on_mouseup. pose proof Hinv as Hst. unfold consistent in Hinv.
    destruct (context st) as [ctx|] eqn:Hc; [|eauto].
    destruct (activated ctx) eqn:Ha.
    + destruct (Hinv Ha) as (snap & ms & Hs & Hms & _).
      destruct (resolve_total ms (sourceIndex snap))
        as (t & reads & Hr & _).
      destruct (drop_activated dom ctx snap ms t _ Ha Hs Hms Hr)
        as (ctx' & Hd & _).
      rewrite Hd. do 2 eexists. split; [reflexivity|exact I].
    + unfold drop. rewrite Ha. do 2 eexists. split; [reflexivity|exact I].
  - do 2 eexists. split; [reflexivity|]. exact Hinv.
Qed.

(** From [setup] on, whatever the options and the inputs, every handler
    runs to its end: no array or context field is read while undefined. *)
Theorem run_never_throws (options : TableDndSortableOptions)
  (inputs : list Input) :
  exists st effs, run options inputs setup = Some (st, effs) /\ consistent st.
Proof.
  assert (H : forall s, consistent s ->
              exists st effs,
                run options inputs s = Some (st, effs) /\ consistent st).
  { induction inputs as [|i inputs IH]; intros s Hs; simpl.
    - eauto.
    - destruct (step_total options i s Hs) as (s1 & e1 & Hstep & Hs1).
      rewrite Hstep.
      destruct (IH s1 Hs1) as (s2 & e2 & Hrun & Hs2).
      rewrite Hrun. eauto. }
  apply H. exact I.
Qed.

(** The whole gesture on the five rows: press on row 2, pull 45 pixels
    straight down, release. *)
Lemma drag_row2_down_45 :
  exists ctx_start ctx_active ctx_moved ctx_dropped,
    run defaultOptions
      [MouseDown press_row2; MouseMove five_rows long_pull;
       MouseUp five_rows]
      setup
    = Some (setup,
            [OnDragStart ctx_start; OnDragActivate ctx_active;
             PreventDefault;
             StyleMove (tr 2) "100" (Some "none"%string) 45;
             StyleMove (tr 3) "0" None ((-40) # 1);
             OnDragMove ctx_moved;
             StyleReset (tr 0); StyleReset (tr 1); StyleReset (tr 2);
             StyleReset (tr 3); StyleReset (tr 4);
             OnDrop ctx_dropped])
    /\ movememtSeq ctx_moved = Some [0; 0; 45; (-40) # 1; 0]
    /\ resolved ctx_dropped = Some (3%Z, Some (tr 3)).
Proof.
  do 4 eexists. split; [reflexivity|]. split; reflexivity.
Qed.

(** * Further properties *)

(** ** A drop after a move *)


Lemma js_index_newMovementSeq (snap : Snapshot) (dy : Q) (i : Z) :
  js_index (newMovementSeq snap dy) i
  = option_map (fun b => displacement snap dy b i)
      (js_index (bottomSeq snap) i).
Proof. unfold newMovementSeq. apply js_index_map_index. Qed.



(** Where a finished walk stands: every entry it passed satisfied the
    guard, and the next one does not. *)
Lemma walks_up_inv (ms : list Q) (s t : Z) :
  walks_up ms s t ->
  (t <= s)%Z
  /\ (forall i, (t <= i < s)%Z ->
                exists m, js_index ms i = Some m /\ 0 < m)
  /\ ~ up_guard ms t.
Proof.
  induction 1 as [t Hn|s t Hg Hw (Hle & Hall & Hstop)].
  - split; [lia|]. split; [intros i Hi; lia|exact Hn].
  - split; [lia|]. split; [|exact Hstop].
    intros i Hi. destruct (Z.eq_dec i (s - 1)) as [->|Hne].
    + destruct Hg as [_ Hm]. exact Hm.
    + apply Hall. lia.
Qed.

Lemma walks_down_inv (ms : list Q) (s t : Z) :
  walks_down ms s t ->
  (s <= t)%Z
  /\ (forall i, (s < i <= t)%Z ->
                exists m, js_index ms i = Some m /\ m < 0)
  /\ ~ down_guard ms t.
Proof.
  induction 1 as [t Hn|s t Hg Hw (Hle & Hall & Hstop)].
  - split; [lia|]. split; [intros i Hi; lia|exact Hn].
  - split; [lia|]. split; [|exact Hstop].
    intros i Hi. destruct (Z.eq_dec i (s + 1)) as [->|Hne].
    + destruct Hg as [_ Hm]. exact Hm.
    + apply Hall. lia.
Qed.





(** ** Movement sequences that move nothing *)

(** When no entry of the movement sequence differs from 0 both walks
    stay where they start. *)
Lemma resolve_still (ms : list Q) (s : Z) :
  (forall i m, js_index ms i = Some m -> m == 0) ->
  exists log, resolve ms s = Some (s, log).
Proof.
  intro Hzero.
  destruct (resolve_total ms s) as (t & reads & Hr & Hspec & _).
  assert (Ht : t = s).
  { destruct Hspec as (up & Hup & Hcase).
    apply walks_up_inv in Hup. destruct Hup as (Hle & Hpass & _).
    assert (Hu : up = s).
    { destruct (Z.eq_dec up s) as [E|Hne]; [exact E|].
      destruct (Hpass up) as (m & Hm & Hpos); [lia|].
      apply Hzero in Hm. lra. }
    destruct Hcase as [[Hne _]|[_ Hdown]]; [contradiction|].
    apply walks_down_inv in Hdown. destruct Hdown as (Hle' & Hpass' & _).
    destruct (Z.eq_dec t s) as [E|Hne]; [exact E|].
    destruct (Hpass' t) as (m & Hm & Hneg); [lia|].
    apply Hzero in Hm. lra. }
  subst t. eauto.
Qed.

Lemma displacement_at_rest (snap : Snapshot) (dy b : Q) (i : Z) :
  dy == 0 -> displacement snap dy b i == 0.
Proof.
  intro Hdy. unfold displacement.
  destruct (i =? sourceIndex snap)%Z; [exact Hdy|].
  assert (E : matchDirection snap dy i = false).
  { unfold matchDirection. apply gtb_false. rewrite Hdy. lra. }
  rewrite E. reflexivity.
Qed.

(** X2.  Back at the start.  A move whose offset is 0 leaves every
    displacement at 0, the source's included, whatever the snapshot and
    whatever was displaced before; the drop that follows reports
    [targetIndex = sourceIndex]. *)
Theorem X2_back_at_start_restores_every_row
  (dom : Dom) (ctx ctx1 : TableDndContext) (snap : Snapshot) (dy : Q)
  (effs : list Effect) :
  activated ctx = true ->
  snapshot ctx = Some snap ->
  dy == 0 ->
  move dy ctx = Some (ctx1, effs) ->
  exists seq ctx2,
    movememtSeq ctx1 = Some seq
    /\ List.length seq = List.length (bottomSeq snap)
    /\ Forall (fun m => m == 0) seq
    /\ drop dom ctx1 = Some (map StyleReset (query_tr dom) ++ [OnDrop ctx2])
    /\ resolved ctx2
       = Some (sourceIndex snap, js_index (rowSeq snap) (sourceIndex snap)).
Proof.
  intros Ha Hs Hdy Hm.
  destruct (move_movememtSeq dy ctx ctx1 snap effs Hs Hm)
    as (Hms & Hs1 & Ha1).
  rewrite Ha in Ha1.
  assert (Hzero : forall i m,
             js_index (newMovementSeq snap dy) i = Some m -> m == 0).
  { intros i m. rewrite js_index_newMovementSeq.
    destruct (js_index (bottomSeq snap) i) as [b|]; [|discriminate].
    simpl. intro E. injection E as <-.
    apply displacement_at_rest. exact Hdy. }
  destruct (resolve_still (newMovementSeq snap dy) (sourceIndex snap) Hzero)
    as [log Hr].
  destruct (drop_activated dom ctx1 snap _ _ _ Ha1 Hs1 Hms Hr)
    as (ctx2 & Hd & Hres & _).
  exists (newMovementSeq snap dy), ctx2.
  split; [exact Hms|]. split.
  { unfold newMovementSeq. apply length_map_index. }
  split; [|split; assumption].
  apply Forall_forall. intros m Hin.
  apply In_nth_error in Hin. destruct Hin as [n Hn].
  apply (Hzero (Z.of_nat n)). unfold js_index.
  destruct (Z.of_nat n <? 0)%Z eqn:E; [apply Z.ltb_lt in E; lia|].
  rewrite Nat2Z.id. exact Hn.
Qed.

Lemma X2_back_at_start_restores_every_row_witness :
  exists seq ctx2,
    movememtSeq moved_back = Some seq
    /\ List.length seq = List.length (bottomSeq snapshot_5x40)
    /\ Forall (fun m => m == 0) seq
    /\ drop five_rows moved_back
       = Some (map StyleReset (query_tr five_rows) ++ [OnDrop ctx2])
    /\ resolved ctx2
       = Some (sourceIndex snapshot_5x40,
               js_index (rowSeq snapshot_5x40) (sourceIndex snapshot_5x40)).
Proof.
  apply (X2_back_at_start_restores_every_row five_rows moved_45 moved_back
           snapshot_5x40 0
           [StyleMove (tr 2) "100" (Some "none"%string) 0;
            StyleMove (tr 3) "0" None 0;
            OnDragMove moved_back]).
  - reflexivity.
  - reflexivity.
  - reflexivity.
  - reflexivity.
Defined.

(** ** What activation measures *)

Lemma Element_eqb_eq (a b : Element) : Element_eqb a b = true <-> a = b.
Proof.
  unfold Element_eqb. rewrite andb_true_iff, Nat.eqb_eq, String.eqb_eq.
  destruct a as [na ta], b as [nb tb]. simpl. split.
  - intros [-> ->]. reflexivity.
  - intro E. injection E as -> ->. auto.
Qed.

Lemma indexOf_from_absent (a : list Element) (x : Element) :
  ~ In x a -> forall k, indexOf_from k a x = (-1)%Z.
Proof.
  induction a as [|y rest IH]; intros Hnot k; simpl; [reflexivity|].
  destruct (Element_eqb y x) eqn:E.
  - apply Element_eqb_eq in E. subst y. exfalso. apply Hnot. left.
    reflexivity.
  - apply IH. intro Hin. apply Hnot. right. exact Hin.
Qed.







(** Every displacement is 0 when activation did not find the source. *)
Lemma displacement_stray (snap : Snapshot) (dy b : Q) (i : Z) :
  sourceIndex snap = (-1)%Z ->
  sourceMidPoint snap = None ->
  (0 <= i)%Z ->
  displacement snap dy b i = 0.
Proof.
  intros Hs Hm Hi. unfold displacement, overMidPoint. rewrite Hs, Hm.
  destruct (i =? -1)%Z eqn:E; [apply Z.eqb_eq in E; lia|].
  rewrite andb_false_r. reflexivity.
Qed.

(** X5.  A source that left the table.  When the source row is not
    among the table's rows at activation, a move displaces nothing
    whatever the offset, not even the source, and the drop that follows
    reports [targetIndex = -1] with an undefined [target]. *)
Theorem X5_stray_source_moves_nothing
  (dom dom' : Dom) (src : Element) (ctx ctx1 : TableDndContext) (dy : Q)
  (effs : list Effect) :
  ~ In src (query_tr dom) ->
  activated ctx = true ->
  snapshot ctx = Some (take_snapshot dom src) ->
  move dy ctx = Some (ctx1, effs) ->
  exists seq ctx2,
    movememtSeq ctx1 = Some seq
    /\ List.length seq = List.length (query_tr dom)
    /\ Forall (fun m => m = 0) seq
    /\ drop dom' ctx1
       = Some (map StyleReset (query_tr dom') ++ [OnDrop ctx2])
    /\ resolved ctx2 = Some ((-1)%Z, None).
Proof.
  intros Hnot Ha Hs Hm.
  set (snap := take_snapshot dom src) in *.
  assert (Hidx : sourceIndex snap = (-1)%Z).
  { unfold snap, take_snapshot. cbn [sourceIndex]. unfold indexOf.
    apply indexOf_from_absent. exact Hnot. }
  assert (Hmid : sourceMidPoint snap = None).
  { unfold snap, take_snapshot. cbn [sourceMidPoint]. unfold indexOf.
    rewrite (indexOf_from_absent (query_tr dom) src Hnot 0). reflexivity. }
  destruct (move_movememtSeq dy ctx ctx1 snap effs Hs Hm)
    as (Hms & Hs1 & Ha1).
  rewrite Ha in Ha1.
  assert (Hzero : forall i m,
             js_index (newMovementSeq snap dy) i = Some m -> m = 0).
  { intros i m Hi.
    pose proof (js_index_Some_range _ _ _ Hi) as Hr.
    rewrite js_index_newMovementSeq in Hi.
    destruct (js_index (bottomSeq snap) i) as [b|]; [|discriminate].
    simpl in Hi. injection Hi as <-.
    apply displacement_stray; [exact Hidx|exact Hmid|lia]. }
  destruct (resolve_still (newMovementSeq snap dy) (sourceIndex snap))
    as [log Hr].
  { intros i m Hi. rewrite (Hzero i m Hi). reflexivity. }
  destruct (drop_activated dom' ctx1 snap _ _ _ Ha1 Hs1 Hms Hr)
    as (ctx2 & Hd & Hres & _).
  exists (newMovementSeq snap dy), ctx2.
  split; [exact Hms|]. split.
  { unfold newMovementSeq. rewrite length_map_index.
    unfold snap, take_snapshot. cbn [bottomSeq].
    rewrite length_cumulate, length_map. reflexivity. }
  split.
  { apply Forall_forall. intros m Hin.
    apply In_nth_error in Hin. destruct Hin as [n Hn].
    apply (Hzero (Z.of_nat n)). unfold js_index.
    destruct (Z.of_nat n <? 0)%Z eqn:E; [apply Z.ltb_lt in E; lia|].
    rewrite Nat2Z.id. exact Hn. }
  split; [exact Hd|].
  rewrite Hres, Hidx. reflexivity.
Qed.

Lemma X5_stray_source_moves_nothing_witness :
  exists seq ctx2,
    movememtSeq stray_moved = Some seq
    /\ List.length seq = List.length (query_tr five_rows)
    /\ Forall (fun m => m = 0) seq
    /\ drop five_rows stray_moved
       = Some (map StyleReset (query_tr five_rows) ++ [OnDrop ctx2])
    /\ resolved ctx2 = Some ((-1)%Z, None).
Proof.
  apply (X5_stray_source_moves_nothing five_rows five_rows stray_row
           (activated_with (take_snapshot five_rows stray_row) stray_row)
           stray_moved 45 [OnDragMove stray_moved]).
  - simpl. intro H.
    repeat (destruct H as [H|H]; [discriminate|]). exact H.
  - reflexivity.
  - reflexivity.
  - reflexivity.
Defined.

(** ** Style writes *)

Lemma restyle_unchanged (snap : Snapshot) :
  forall (pending pre : list Q),
    restyle snap (Some (pre ++ pending)) (List.length pre) pending = Some [].
Proof.
  induction pending as [|m rest IH]; intro pre; simpl; [reflexivity|].
  rewrite nth_error_app2 by lia. rewrite Nat.sub_diag. simpl.
  assert (E : Qeq_bool m m = true) by (apply Qeq_bool_iff; reflexivity).
  rewrite E. simpl.
  specialize (IH (pre ++ [m])).
  rewrite <- app_assoc, length_app in IH. simpl in IH.
  rewrite Nat.add_1_r in IH. exact IH.
Qed.

(** X6.  A repeated move.  A second move with the same offset writes no
    style at all and leaves the context as it is: only [onDragMove] is
    called. *)
Theorem X6_repeated_move_writes_no_style
  (dy : Q) (ctx ctx1 : TableDndContext) (effs : list Effect) :
  move dy ctx = Some (ctx1, effs) ->
  move dy ctx1 = Some (ctx1, [OnDragMove ctx1]).
Proof.
  unfold move at 1.
  destruct (snapshot ctx) as [snap|] eqn:Hs; [|discriminate].
  destruct (restyle snap (movememtSeq ctx) 0 (newMovementSeq snap dy));
    [|discriminate].
  intro E. injection E as <- _.
  unfold move. cbn [snapshot movememtSeq].
  pose proof (restyle_unchanged snap (newMovementSeq snap dy) []) as Hr.
  simpl in Hr. rewrite Hr. reflexivity.
Qed.

Lemma X6_repeated_move_writes_no_style_witness :
  move 45 moved_45 = Some (moved_45, [OnDragMove moved_45]).
Proof.
  apply (X6_repeated_move_writes_no_style 45
           (activated_with snapshot_5x40 (tr 2)) moved_45
           [StyleMove (tr 2) "100" (Some "none"%string) 45;
            StyleMove (tr 3) "0" None ((-40) # 1);
            OnDragMove moved_45]).
  reflexivity.
Defined.

(** ** The pointer-down handler *)

Lemma find_source_app (table : Element) (pre : list Element) :
  Forall (stepped_over table) pre ->
  forall rest, find_source (pre ++ rest) table = find_source rest table.
Proof.
  induction 1 as [|el pre [Htag Htab] _ IH]; intro rest; simpl;
    [reflexivity|].
  apply String.eqb_neq in Htag. rewrite Htag.
  destruct (Element_eqb el table) eqn:E.
  - apply Element_eqb_eq in E. contradiction.
  - simpl. apply IH.
Qed.

(** X7.  Which pointer-downs arm a drag.  A pointer-down that
    [onBeforeDragStart] accepts arms a drag exactly on the first row met
    on the way up from the event target, provided no earlier element on
    that way is the table: the new context holds that row and the
    pointer position, is not activated, and replaces whatever context
    there was, with [onDragStart] as the only effect.  A pointer-down
    that is rejected, that reaches the table before any row (rows
    enclosing the table are not looked at), or that meets neither row
    nor table changes nothing. *)
Theorem X7_pointer_down_arms_on_the_enclosing_row
  (options : TableDndSortableOptions) (evt : MouseEvent) (st : State) :
  (onBeforeDragStart options evt = false ->
   on_mousedown options evt st = Some (st, []))
  /\ (forall pre src post,
        onBeforeDragStart options evt = true ->
        target_chain evt = pre ++ src :: post ->
        Forall (stepped_over (currentTarget evt)) pre ->
        tagName src = "TR"%string ->
        on_mousedown options evt st
        = Some (set_context st
                  (Some {| startPosition := (clientX evt, clientY evt);
                           activated := false;
                           source := src;
                           snapshot := None;
                           movememtSeq := None;
                           resolved := None |}),
                [OnDragStart
                   {| startPosition := (clientX evt, clientY evt);
                      activated := false;
                      source := src;
                      snapshot := None;
                      movememtSeq := None;
                      resolved := None |}]))
  /\ (forall pre post,
        target_chain evt = pre ++ currentTarget evt :: post ->
        Forall (stepped_over (currentTarget evt)) pre ->
        tagName (currentTarget evt) <> "TR"%string ->
        on_mousedown options evt st = Some (st, []))
  /\ (Forall (stepped_over (currentTarget evt)) (target_chain evt) ->
      on_mousedown options evt st = Some (st, [])).
Proof.
  unfold on_mousedown. split; [|split; [|split]].
  - intros ->. reflexivity.
  - intros pre src post Hg Hchain Hpre Htag.
    rewrite Hg, Hchain, find_source_app by exact Hpre.
    cbn [find_source]. rewrite Htag. simpl. rewrite Htag. reflexivity.
  - intros pre post Hchain Hpre Htag.
    destruct (negb (onBeforeDragStart options evt)); [reflexivity|].
    rewrite Hchain, find_source_app by exact Hpre. simpl.
    apply String.eqb_neq in Htag. rewrite Htag. simpl.
    assert (E : Element_eqb (currentTarget evt) (currentTarget evt) = true)
      by (apply Element_eqb_eq; reflexivity).
    rewrite E. simpl. rewrite Htag. reflexivity.
  - intros Hall.
    destruct (negb (onBeforeDragStart options evt)); [reflexivity|].
    rewrite <- (app_nil_r (target_chain evt)).
    rewrite find_source_app by exact Hall. reflexivity.
Qed.

Lemma X7_pointer_down_arms_on_the_enclosing_row_witness :
  on_mousedown defaultOptions press_row2 setup
  = Some (armed_state, [OnDragStart (fst (start (tr 2) (0, 0)))])
  /\ on_mousedown defaultOptions press_border armed_state
     = Some (armed_state, []).
Proof.
  split.
  - apply (X7_pointer_down_arms_on_the_enclosing_row defaultOptions
             press_row2 setup)
      with (pre := [td_in_row 2]) (post := [table_el]).
    + reflexivity.
    + reflexivity.
    + constructor; [|constructor]. split; discriminate.
    + reflexivity.
  - apply (X7_pointer_down_arms_on_the_enclosing_row defaultOptions
             press_border armed_state)
      with (pre := @nil Element) (post := [outer_row]).
    + reflexivity.
    + constructor.
    + discriminate.
Defined.

(** ** The default gate and plain clicks *)

(** X8.  The default activation gate without the division: it accepts
    exactly when the pointer has travelled more than 10 pixels
    vertically and more than twice as far vertically as horizontally. *)
Theorem X8_default_gate_is_a_slope_test (evt : MouseEvent) (dx dy : Q)
  (ctx : TableDndContext) :
  onBeforeDragActivate defaultOptions evt (dx, dy) ctx = true
  <-> 10 < Qabs dy /\ 2 * Qabs dx < Qabs dy.
Proof. apply default_gate_slope. Qed.

Lemma small_or_sideways_rejected (ctx : TableDndContext) (i : Input) :
  small_or_sideways ctx i -> gate_rejects defaultOptions ctx i.
Proof.
  destruct i as [evt|dom evt|dom|]; try (intros []).
  unfold small_or_sideways, gate_rejects.
  destruct (delta evt ctx) as [dx dy]. intro H.
  apply not_true_is_false. intro Hg.
  apply default_gate_slope in Hg. destruct Hg as [H1 H2].
  destruct H as [H|H]; lra.
Qed.

(** X9.  A click is not a drag.  Under the default options, when the
    context is not activated and every pointer-move stays within 10
    pixels of the start line or travels no more than twice as far
    vertically as horizontally, the pointer-up that follows clears the
    context and nothing is called or styled on the way. *)
Theorem X9_click_under_default_options
  (st : State) (ctx : TableDndContext) (moves : list Input) (dom : Dom) :
  mouseupListener st = true ->
  context st = Some ctx ->
  activated ctx = false ->
  Forall (small_or_sideways ctx) moves ->
  run defaultOptions (moves ++ [MouseUp dom]) st
  = Some (set_context st None, []).
Proof.
  intros Hup Hc Ha Hmoves.
  assert (Hrej : Forall (gate_rejects defaultOptions ctx) moves).
  { eapply Forall_impl; [|exact Hmoves].
    intros i. apply small_or_sideways_rejected. }
  rewrite run_app,
    (run_moves_rejected defaultOptions st ctx moves Hc Ha Hrej).
  simpl. rewrite Hup. unfold on_mouseup, drop. rewrite Hc, Ha.
  reflexivity.
Qed.

Lemma X9_click_under_default_options_witness :
  run defaultOptions
    ([MouseMove five_rows nudge; MouseMove five_rows nudge]
     ++ [MouseUp five_rows])
    armed_state
  = Some (set_context armed_state None, []).
Proof.
  apply (X9_click_under_default_options armed_state
           (fst (start (tr 2) (0, 0)))
           [MouseMove five_rows nudge; MouseMove five_rows nudge]
           five_rows).
  - reflexivity.
  - reflexivity.
  - reflexivity.
  - constructor; [|constructor; [|constructor]];
      (simpl; left; vm_compute; discriminate).
Defined.

(** ** An active drag *)

(** X10.  The snapshot is frozen.  Once the context is activated a
    pointer-move neither consults [onBeforeDragActivate] nor reads the
    document: its outcome is the same under any options and any
    document, and the context it leaves is still activated, with the
    same source, start position and snapshot, its movement sequence
    recomputed from that snapshot for the vertical offset of the
    event. *)
Theorem X10_active_drag_keeps_its_snapshot
  (options options' : TableDndSortableOptions) (dom dom' : Dom)
  (evt : MouseEvent) (st : State) (ctx : TableDndContext) :
  context st = Some ctx ->
  activated ctx = true ->
  on_mousemove options dom evt st = on_mousemove options' dom' evt st
  /\ forall st' effs,
       on_mousemove options dom evt st = Some (st', effs) ->
       exists ctx' snap,
         context st' = Some ctx'
         /\ activated ctx' = true
         /\ source ctx' = source ctx
         /\ startPosition ctx' = startPosition ctx
         /\ snapshot ctx = Some snap
         /\ snapshot ctx' = Some snap
         /\ movememtSeq ctx'
            = Some (newMovementSeq snap
                      (clientY evt - snd (startPosition ctx))).
Proof.
  intros Hc Ha. unfold on_mousemove. rewrite Hc.
  destruct (startPosition ctx) as [startX startY] eqn:Hpos.
  rewrite Ha. simpl. rewrite Ha. split; [reflexivity|].
  intros st' effs.
  unfold move. destruct (snapshot ctx) as [snap|] eqn:Hs; [|discriminate].
  destruct (restyle snap (movememtSeq ctx) 0
              (newMovementSeq snap (clientY evt - startY)));
    [|discriminate].
  intro E. injection E as <- _.
  eexists. exists snap. simpl. rewrite Ha, Hpos. repeat split.
Qed.

Lemma X10_active_drag_keeps_its_snapshot_witness :
  on_mousemove defaultOptions five_rows nudge dragging_state
  = on_mousemove veto_options tie_rows nudge dragging_state.
Proof.
  apply (X10_active_drag_keeps_its_snapshot defaultOptions veto_options
           five_rows tie_rows nudge dragging_state moved_45).
  - reflexivity.
  - reflexivity.
Defined.

(** ** What the callbacks are handed *)





(** ** The order of the effects *)







(** ** Which rows a move restyles *)

Lemma restyle_writes (snap : Snapshot) (old : option (list Q)) :
  forall (pending : list Q) (k : nat) (styles : list Effect),
    restyle snap old k pending = Some styles ->
    forall e,
      In e styles
      <-> exists j row m,
            nth_error pending j = Some m
            /\ nth_error (rowSeq snap) (k + j) = Some row
            /\ changed_from old (k + j) m
            /\ e = style_write snap (k + j) row m.
Proof.
  induction pending as [|m rest IH]; intros k styles; simpl.
  - intro E. injection E as <-. intro e. split; [contradiction|].
    intros (j & row & m & Hj & _). destruct j; discriminate.
  - set (changed :=
           match match old with
                 | Some ms => nth_error ms k
                 | None => Some 0
                 end with
           | Some o => negb (Qeq_bool o m)
           | None => true
           end).
    assert (Hch : changed = true <-> changed_from old k m).
    { unfold changed, changed_from. destruct old as [ms|].
      - destruct (nth_error ms k) as [o|]; [|tauto].
        rewrite negb_true_iff. apply Qeq_bool_false.
      - rewrite negb_true_iff. apply Qeq_bool_false. }
    destruct changed.
    + destruct (nth_error (rowSeq snap) k) as [row|] eqn:Hrow;
        [|discriminate].
      destruct (restyle snap old (S k) rest) as [tail|] eqn:Et;
        [|discriminate].
      simpl. intro E. injection E as <-. intro e.
      specialize (IH (S k) tail Et e). simpl. rewrite IH. split.
      * intros [<-|(j & r & x & Hj & Hr & Hc & ->)].
        -- exists 0%nat, row, m. rewrite Nat.add_0_r.
           split; [reflexivity|]. split; [exact Hrow|].
           split; [apply Hch; reflexivity|].
           unfold style_write.
           destruct (Z.of_nat k =? sourceIndex snap)%Z; reflexivity.
        -- exists (S j), r, x. rewrite Nat.add_succ_r.
           simpl in Hr, Hc. auto.
      * intros (j & r & x & Hj & Hr & Hc & ->). destruct j as [|j].
        -- left. rewrite Nat.add_0_r in *. simpl in Hj.
           injection Hj as <-. rewrite Hrow in Hr. injection Hr as <-.
           unfold style_write.
           destruct (Z.of_nat k =? sourceIndex snap)%Z; reflexivity.
        -- right. exists j, r, x. rewrite Nat.add_succ_r in *.
           simpl in Hj. simpl. auto.
    + intros Et e. specialize (IH (S k) styles Et e). rewrite IH. split.
      * intros (j & r & x & Hj & Hr & Hc & ->).
        exists (S j), r, x. rewrite Nat.add_succ_r. simpl in Hr, Hc. auto.
      * intros (j & r & x & Hj & Hr & Hc & ->). destruct j as [|j].
        -- exfalso. rewrite Nat.add_0_r in Hc. simpl in Hj.
           injection Hj as <-. apply Hch in Hc. discriminate.
        -- exists j, r, x. rewrite Nat.add_succ_r in *.
           simpl in Hj. simpl. auto.
Qed.

(** X13.  A move restyles exactly the rows whose displacement changed.
    The effects of a move are style writes followed by one [onDragMove].
    A row gets a style write exactly when its new displacement differs
    from the one in the previous movement sequence (from 0 on the first
    move); the write carries the new displacement, with [zIndex] 100 and
    no transition for the source row, [zIndex] 0 and the default
    transition for any other row. *)
Theorem X13_move_restyles_the_changed_rows
  (dy : Q) (ctx ctx1 : TableDndContext) (snap : Snapshot)
  (effs : list Effect) :
  snapshot ctx = Some snap ->
  move dy ctx = Some (ctx1, effs) ->
  exists styles,
    effs = styles ++ [OnDragMove ctx1]
    /\ forall e,
         In e styles
         <-> exists i row m,
               nth_error (newMovementSeq snap dy) i = Some m
               /\ nth_error (rowSeq snap) i = Some row
               /\ changed_from (movememtSeq ctx) i m
               /\ e = style_write snap i row m.
Proof.
  intros Hs. unfold move. rewrite Hs.
  destruct (restyle snap (movememtSeq ctx) 0 (newMovementSeq snap dy))
    as [styles|] eqn:Er; [|discriminate].
  intro E. injection E as <- <-.
  exists styles. split; [reflexivity|].
  intro e. apply (restyle_writes snap _ _ 0%nat styles Er e).
Qed.

Lemma X13_move_restyles_the_changed_rows_witness :
  exists styles,
    [StyleMove (tr 2) "100" (Some "none"%string) 45;
     StyleMove (tr 3) "0" None ((-40) # 1);
     OnDragMove moved_45]
    = styles ++ [OnDragMove moved_45]
    /\ forall e,
         In e styles
         <-> exists i row m,
               nth_error (newMovementSeq snapshot_5x40 45) i = Some m
               /\ nth_error (rowSeq snapshot_5x40) i = Some row
               /\ changed_from
                    (movememtSeq (activated_with snapshot_5x40 (tr 2))) i m
               /\ e = style_write snapshot_5x40 i row m.
Proof.
  apply (X13_move_restyles_the_changed_rows 45
           (activated_with snapshot_5x40 (tr 2)) moved_45 snapshot_5x40).
  - reflexivity.
  - reflexivity.
Defined.

(** ** The event that activates *)

(** X14.  Activation and the first move happen in one event.  A
    pointer-move that finds a context not yet activated hands the gate
    the offsets from the start position; when the gate accepts, the
    handler snapshots the document as it is then, calls
    [onDragActivate], prevents the default action, restyles and calls
    [onDragMove] with the movement sequence for the same event's
    vertical offset, and it does so without throwing whatever the
    document holds. *)
Theorem X14_accepted_move_activates_and_moves
  (options : TableDndSortableOptions) (dom : Dom) (evt : MouseEvent)
  (st : State) (ctx : TableDndContext) :
  context st = Some ctx ->
  activated ctx = false ->
  onBeforeDragActivate options evt (delta evt ctx) ctx = true ->
  exists styles ctx',
    Forall is_style_move styles
    /\ on_mousemove options dom evt st
       = Some (set_context st (Some ctx'),
               OnDragActivate (fst (activate dom ctx))
               :: PreventDefault :: styles ++ [OnDragMove ctx'])
    /\ activated ctx' = true
    /\ source ctx' = source ctx
    /\ startPosition ctx' = startPosition ctx
    /\ snapshot ctx' = Some (take_snapshot dom (source ctx))
    /\ movememtSeq ctx'
       = Some (newMovementSeq (take_snapshot dom (source ctx))
                 (snd (delta evt ctx))).
Proof.
  intros Hc Ha Hg. unfold on_mousemove. rewrite Hc.
  unfold delta in *. destruct (startPosition ctx) as [startX startY] eqn:Hp.
  rewrite Ha, Hg. simpl. unfold move. simpl.
  destruct (restyle_total (take_snapshot dom (source ctx)) (movememtSeq ctx)
              (newMovementSeq (take_snapshot dom (source ctx))
                 (clientY evt - startY)) 0)
    as [styles Hst].
  { unfold newMovementSeq. rewrite length_map_index.
    rewrite take_snapshot_parallel. simpl. lia. }
  simpl in Hst. rewrite Hst.
  exists styles. eexists. split.
  { eapply restyle_effects. exact Hst. }
  split; [reflexivity|]. simpl. rewrite Hp. repeat split.
Qed.

Lemma X14_accepted_move_activates_and_moves_witness :
  exists styles ctx',
    Forall is_style_move styles
    /\ on_mousemove defaultOptions five_rows long_pull armed_state
       = Some (set_context armed_state (Some ctx'),
               OnDragActivate
                 (fst (activate five_rows (fst (start (tr 2) (0, 0)))))
               :: PreventDefault :: styles ++ [OnDragMove ctx'])
    /\ activated ctx' = true
    /\ source ctx' = source (fst (start (tr 2) (0, 0)))
    /\ startPosition ctx' = startPosition (fst (start (tr 2) (0, 0)))
    /\ snapshot ctx'
       = Some (take_snapshot five_rows
                 (source (fst (start (tr 2) (0, 0)))))
    /\ movememtSeq ctx'
       = Some (newMovementSeq
                 (take_snapshot five_rows
                    (source (fst (start (tr 2) (0, 0)))))
                 (snd (delta long_pull (fst (start (tr 2) (0, 0)))))).
Proof.
  apply (X14_accepted_move_activates_and_moves defaultOptions five_rows
           long_pull armed_state (fst (start (tr 2) (0, 0)))).
  - reflexivity.
  - reflexivity.
  - reflexivity.
Defined.
